(** * Join requests and team membership (convex/lib/team)

    A shallow embedding of the team library of the competition platform:
    [recordJoinRequest], [listOwnParticipations], [findTeamOfUser],
    [validateTeamJoinRequest], [addUserToTeam], [verifyTeam] and
    [validateCrossChatParticipation], over an explicit model of the document
    store they read and write.

    The store is a record of tables.  A table is the list of its documents in
    creation order, which is the order in which an index range over equal keys
    yields them; [find] and [filter] over that list are the store's
    [first]/[collect].  Reader functions are functions of the store; writer
    functions thread the store and keep the writes made before an error is
    raised, the way the handle passed to the source functions does. *)

From Stdlib Require Import String Arith ZArith Bool List Lia.
Import ListNotations.

(** ** Documents *)

Definition Id := nat.

(** Of a user document the library reads the identifier only
    ([user._id], [joiner._id], [member._id]). *)
Record UserDoc := mkUser { user_id : Id }.

Record CompetitionDoc := mkCompetition { competition_id : Id }.

Record TeamDoc := mkTeam { team_id : Id; team_competition : Id }.

Record ParticipantDoc := mkParticipant
  { participant_id : Id; participant_user : Id; participant_team : Id }.

Record JoinRequestDoc := mkJoinRequest
  { jr_id : Id; jr_team : Id; jr_user : Id;
    jr_userConsent : bool; jr_teamConsent : bool }.

Record JoinMessageDoc := mkJoinMessage
  { jm_id : Id; jm_join_request : Id; jm_sender : Id; jm_message : string }.

(** ** The store *)

Record DB := mkDB
  { competitions : list CompetitionDoc;
    teams : list TeamDoc;
    participants : list ParticipantDoc;
    join_requests : list JoinRequestDoc;
    join_messages : list JoinMessageDoc;
    next_id : Id (* the identifier the next insert assigns *) }.

Definition set_teams (ts : list TeamDoc) (db : DB) : DB :=
  mkDB (competitions db) ts (participants db) (join_requests db)
       (join_messages db) (next_id db).

Definition set_participants (ps : list ParticipantDoc) (db : DB) : DB :=
  mkDB (competitions db) (teams db) ps (join_requests db)
       (join_messages db) (next_id db).

Definition set_join_requests (js : list JoinRequestDoc) (db : DB) : DB :=
  mkDB (competitions db) (teams db) (participants db) js
       (join_messages db) (next_id db).

Definition set_join_messages (ms : list JoinMessageDoc) (db : DB) : DB :=
  mkDB (competitions db) (teams db) (participants db) (join_requests db)
       ms (next_id db).

Definition set_next_id (n : Id) (db : DB) : DB :=
  mkDB (competitions db) (teams db) (participants db) (join_requests db)
       (join_messages db) n.

(** ** Errors and results *)

Inductive ConvexError :=
| UserNotInCompetition      (* 'The user is not in the competition' *)
| InternalServerError       (* 'An internal server error occurred' *)
| TeamDoesNotExist          (* code 404, 'The team does not exist' *)
| NotAuthenticated          (* raised by the identity resolver *)
| NonexistentDocument.      (* patch or delete of an id the table lacks *)

Inductive Result (A : Type) :=
| Ok (a : A)
| Throw (e : ConvexError).

Arguments Ok {A} a.
Arguments Throw {A} e.

(** A writer runs on the store handle: it yields a result and the store as
    the writes made so far have left it, also when it throws. *)
Definition M (A : Type) := DB -> Result A * DB.

Definition ret {A} (a : A) : M A := fun db => (Ok a, db).

Definition throw {A} (e : ConvexError) : M A := fun db => (Throw e, db).

Definition bind {A B} (m : M A) (k : A -> M B) : M B :=
  fun db =>
    match m db with
    | (Ok a, db') => k a db'
    | (Throw e, db') => (Throw e, db')
    end.

Definition read {A} (r : DB -> Result A) : M A := fun db => (r db, db).

Notation "x <- m ;; k" := (bind m (fun x => k))
  (at level 61, m at next level, right associativity).

(** ** Store primitives *)

Definition get {A} (key : A -> Id) (table : list A) (id : Id) : option A :=
  find (fun row => key row =? id) table.

Definition participants_by_team (db : DB) (team : Id) : list ParticipantDoc :=
  filter (fun item => participant_team item =? team) (participants db).

Definition participants_by_user (db : DB) (user : Id) : list ParticipantDoc :=
  filter (fun item => participant_user item =? user) (participants db).

Definition join_requests_by_team (db : DB) (team : Id) : list JoinRequestDoc :=
  filter (fun item => jr_team item =? team) (join_requests db).

Definition insert_join_request (team user : Id) (userConsent teamConsent : bool)
  : M Id :=
  fun db =>
    let id := next_id db in
    (Ok id,
     set_next_id (S id)
       (set_join_requests
          (join_requests db ++ [mkJoinRequest id team user userConsent teamConsent])
          db)).

Definition insert_join_message (join_request sender : Id) (message : string)
  : M Id :=
  fun db =>
    let id := next_id db in
    (Ok id,
     set_next_id (S id)
       (set_join_messages
          (join_messages db ++ [mkJoinMessage id join_request sender message])
          db)).

(** Document identifiers are unique within a table, so dropping (patching)
    every row that carries an identifier drops (patches) the document.
    [delete] and [patch] throw on an identifier the table lacks. *)
Definition remove_join_request (id : Id) (db : DB) : DB :=
  set_join_requests
    (filter (fun row => negb (jr_id row =? id)) (join_requests db)) db.

Definition delete_join_request (id : Id) : M unit :=
  fun db =>
    match get jr_id (join_requests db) id with
    | None => (Throw NonexistentDocument, db)
    | Some _ => (Ok tt, remove_join_request id db)
    end.

Definition remove_team (id : Id) (db : DB) : DB :=
  set_teams (filter (fun row => negb (team_id row =? id)) (teams db)) db.

Definition delete_team (id : Id) : M unit :=
  fun db =>
    match get team_id (teams db) id with
    | None => (Throw NonexistentDocument, db)
    | Some _ => (Ok tt, remove_team id db)
    end.

Definition patch_team (team : Id) (row : ParticipantDoc) : ParticipantDoc :=
  mkParticipant (participant_id row) (participant_user row) team.

Definition reassign (id team : Id) (db : DB) : DB :=
  set_participants
    (map (fun row =>
            if participant_id row =? id then patch_team team row else row)
         (participants db))
    db.

Definition patch_participant_team (id team : Id) : M unit :=
  fun db =>
    match get participant_id (participants db) id with
    | None => (Throw NonexistentDocument, db)
    | Some _ => (Ok tt, reassign id team db)
    end.

(** [Array.prototype.findIndex]: the index of the first match, or -1. *)
Fixpoint findIndex {A} (f : A -> bool) (l : list A) : Z :=
  match l with
  | [] => (-1)%Z
  | x :: l' =>
      if f x then 0%Z
      else let i := findIndex f l' in
           if (i <? 0)%Z then (-1)%Z else (i + 1)%Z
  end.

(** ** Collaborators outside the library *)

(** Modelled from the spec: the identity resolver [verifyUser] of the user
    module, which is not part of the library.  The authentication context
    resolves to the caller's canonical user record, or to none, and then the
    resolver fails. *)
Definition Auth := option UserDoc.

Definition verifyUser (db : DB) (auth : Auth) : Result UserDoc :=
  match auth with
  | Some user => Ok user
  | None => Throw NotAuthenticated
  end.

(** Modelled from the spec: [convertToUserDocumentArray] of the helpers
    module, which is not part of the library.  A batch lookup that resolves
    member identifiers to their user records and keeps their order; user
    records are never deleted, so every identifier a participant row holds
    resolves. *)
Definition convertToUserDocumentArray (db : DB) (userIds : list Id)
  : list UserDoc :=
  map mkUser userIds.

(** Modelled from the spec: [fulfillAndFlatten] of the helpers module, which
    is not part of the library.  It awaits a list of lists and flattens it,
    so that an entry that resolved to the empty list is dropped. *)
Definition fulfillAndFlatten {A} (items : list (list A)) : list A :=
  concat items.

(** The members of [RequestValidity] (lib/shared), as the spec lists them. *)
Inductive RequestValidity :=
| VALID | BACKWARDS | FULL | COMMITTED | ACCEPTED | INVITED | REQUESTED.

(** ** The library *)

Definition recordJoinRequest (auth : Auth) (inviterTeamId joinerId : Id)
    (pitch : string) (teamConsent : bool) : M Id :=
  user <- read (fun db => verifyUser db auth) ;;
  newJoinRequest <-
    insert_join_request inviterTeamId joinerId (negb teamConsent) teamConsent ;;
  _ <- insert_join_message newJoinRequest (user_id user) pitch ;;
  ret newJoinRequest.

Record Participation := mkParticipation
  { participation : ParticipantDoc;
    team : TeamDoc;
    competition : CompetitionDoc }.

Definition listOwnParticipations (db : DB) (user : UserDoc)
  : list Participation :=
  let participations := participants_by_user db (user_id user) in
  fulfillAndFlatten
    (map (fun item =>
            match get team_id (teams db) (participant_team item) with
            | None => []
            | Some team =>
                match get competition_id (competitions db) (team_competition team) with
                | None => []
                | Some competition => [mkParticipation item team competition]
                end
            end)
         participations).

Record TeamInfo := mkTeamInfo
  { info_team : TeamDoc;
    members : list UserDoc;
    joinRequests : list JoinRequestDoc }.

Definition verifyTeam (db : DB) (teamId : Id) : Result TeamInfo :=
  match get team_id (teams db) teamId with
  | None => Throw TeamDoesNotExist
  | Some team =>
      let memberRows := participants_by_team db teamId in
      let members :=
        convertToUserDocumentArray db (map participant_user memberRows) in
      let joinRequests := join_requests_by_team db teamId in
      Ok (mkTeamInfo team members joinRequests)
  end.

Record TeamOfUser := mkTeamOfUser
  { teamAndMembers : TeamInfo;
    userMembership : ParticipantDoc }.

(** [None] stands for the [false] the source returns. *)
Definition findTeamOfUser (db : DB) (user : UserDoc) (competitionId : Id)
  : Result (option TeamOfUser) :=
  let ownParticipations := listOwnParticipations db user in
  match find (fun item => competition_id (competition item) =? competitionId)
             ownParticipations with
  | None => Ok None
  | Some currentParticipation =>
      match verifyTeam db (team_id (team currentParticipation)) with
      | Throw e => Throw e
      | Ok teamAndMembers =>
          Ok (Some (mkTeamOfUser teamAndMembers
                                 (participation currentParticipation)))
      end
  end.

Definition validateTeamJoinRequest (db : DB) (inviterTeam : TeamDoc)
    (joiner : UserDoc) : Result RequestValidity :=
  let inviterTeamParticipants := participants_by_team db (team_id inviterTeam) in
  let requestorMembership :=
    findIndex (fun item => participant_user item =? user_id joiner)
              inviterTeamParticipants in
  if (-1 <? requestorMembership)%Z then Ok BACKWARDS
  else if 4 <=? length inviterTeamParticipants then Ok FULL
  else
    match findTeamOfUser db joiner (team_competition inviterTeam) with
    | Throw e => Throw e
    | Ok None => Throw UserNotInCompetition
    | Ok (Some joinerTeam) =>
        if 1 <? length (members (teamAndMembers joinerTeam)) then Ok COMMITTED
        else
          let invitingTeamJoinRequests :=
            join_requests_by_team db (team_id inviterTeam) in
          match find (fun item => jr_user item =? user_id joiner)
                     invitingTeamJoinRequests with
          | None => Ok VALID
          | Some joinRequest =>
              if jr_teamConsent joinRequest && jr_userConsent joinRequest
              then Ok ACCEPTED
              else if jr_teamConsent joinRequest && negb (jr_userConsent joinRequest)
              then Ok INVITED
              else if negb (jr_teamConsent joinRequest) && jr_userConsent joinRequest
              then Ok REQUESTED
              else Ok VALID
          end
    end.

Definition addUserToTeam (user : UserDoc) (invitingTeam : TeamDoc) : M unit :=
  userToTeamJoinRequest <-
    read (fun db =>
            Ok (find (fun item => jr_user item =? user_id user)
                     (join_requests_by_team db (team_id invitingTeam)))) ;;
  _ <- match userToTeamJoinRequest with
       | Some request => delete_join_request (jr_id request)
       | None => ret tt
       end ;;
  found <- read (fun db =>
                   findTeamOfUser db user (team_competition invitingTeam)) ;;
  match found with
  | None => throw UserNotInCompetition
  | Some teamOfJoiner =>
      let joinerTeamId := team_id (info_team (teamAndMembers teamOfJoiner)) in
      participations <-
        read (fun db => Ok (participants_by_team db joinerTeamId)) ;;
      match find (fun item => participant_user item =? user_id user)
                 participations with
      | None => throw InternalServerError
      | Some joinerParticipation =>
          _ <- patch_participant_team (participant_id joinerParticipation)
                                      (team_id invitingTeam) ;;
          if length (members (teamAndMembers teamOfJoiner)) =? 1
          then delete_team joinerTeamId
          else ret tt
      end
  end.

Definition validateCrossChatParticipation (db : DB)
    (joinRequestInfo : JoinRequestDoc) (viewer : Id) : Result bool :=
  match verifyTeam db (jr_team joinRequestInfo) with
  | Throw e => Throw e
  | Ok invitingTeam =>
      Ok (existsb (fun member => user_id member =? viewer) (members invitingTeam)
          || (jr_user joinRequestInfo =? viewer))
  end.

(** ** Notions the specification speaks of *)

(** [userId] has a participant row on [teamId]. *)
Definition is_member (db : DB) (teamId userId : Id) : Prop :=
  exists p, In p (participants db)
            /\ participant_team p = teamId /\ participant_user p = userId.

(** The roster of a team is derived: its participant rows. *)
Definition roster_size (db : DB) (teamId : Id) : nat :=
  length (participants_by_team db teamId).

(** [userId] has a participant row whose team and whose team's competition
    both still exist, the competition being [competitionId]. *)
Definition resolvable_team (db : DB) (userId competitionId : Id) : Prop :=
  exists p t c,
    In p (participants db) /\ participant_user p = userId
    /\ get team_id (teams db) (participant_team p) = Some t
    /\ team_competition t = competitionId
    /\ get competition_id (competitions db) competitionId = Some c.

Definition request_between (teamId userId : Id) (jr : JoinRequestDoc) : Prop :=
  jr_team jr = teamId /\ jr_user jr = userId.

Definition no_request_between (db : DB) (teamId userId : Id) : Prop :=
  forall jr, In jr (join_requests db) -> ~ request_between teamId userId jr.

(** [jr] is the earliest join request of the store between the pair. *)
Definition first_request_between (db : DB) (teamId userId : Id)
    (jr : JoinRequestDoc) : Prop :=
  exists before after,
    join_requests db = before ++ jr :: after
    /\ request_between teamId userId jr
    /\ forall x, In x before -> ~ request_between teamId userId x.

(** Invariant I3 at one pair: at most one join request between them. *)
Definition at_most_one_request (db : DB) (teamId userId : Id) : Prop :=
  forall before jr after,
    join_requests db = before ++ jr :: after ->
    request_between teamId userId jr ->
    forall x, In x (before ++ after) -> ~ request_between teamId userId x.

Definition between (teamId userId : Id) (jr : JoinRequestDoc) : bool :=
  (jr_team jr =? teamId) && (jr_user jr =? userId).

(** The classification the consent flags of a found request stand for. *)
Definition consent_state (teamConsent userConsent : bool) : RequestValidity :=
  match teamConsent, userConsent with
  | true, true => ACCEPTED
  | true, false => INVITED
  | false, true => REQUESTED
  | false, false => VALID
  end.

(** What [findTeamOfUser] returns when it finds a team. *)
Record team_of_user_found (db : DB) (user : UserDoc) (competitionId : Id)
    (found : TeamOfUser) : Prop :=
  { found_row : In (userMembership found) (participants db);
    found_user : participant_user (userMembership found) = user_id user;
    found_team :
      get team_id (teams db) (participant_team (userMembership found))
      = Some (info_team (teamAndMembers found));
    found_team_id :
      team_id (info_team (teamAndMembers found))
      = participant_team (userMembership found);
    found_competition :
      team_competition (info_team (teamAndMembers found)) = competitionId;
    found_members :
      members (teamAndMembers found)
      = map mkUser
          (map participant_user
               (participants_by_team db
                  (team_id (info_team (teamAndMembers found)))));
    found_joinRequests :
      joinRequests (teamAndMembers found)
      = join_requests_by_team db (team_id (info_team (teamAndMembers found))) }.

(** The store once the earliest join request between a pair is deleted. *)
Definition without_first_request (db : DB) (teamId userId : Id) : DB :=
  match find (between teamId userId) (join_requests db) with
  | Some request => remove_join_request (jr_id request) db
  | None => db
  end.

(** ** A running example: the scenario of the specification

    Competition 100.  User 1 owns team 10 alone; users 2 and 3 form team 20;
    team 20 has invited user 1. *)

Definition userA : UserDoc := mkUser 1.
Definition teamT1 : TeamDoc := mkTeam 10 100.
Definition teamT2 : TeamDoc := mkTeam 20 100.
Definition invitation : JoinRequestDoc := mkJoinRequest 40 20 1 false true.

Definition scenario : DB :=
  mkDB [mkCompetition 100]
       [teamT1; teamT2]
       [mkParticipant 30 1 10; mkParticipant 31 2 20; mkParticipant 32 3 20]
       [invitation]
       [mkJoinMessage 41 40 2 "join us"]
       42.

(** Team 20 at the roster cap, with an accepted request of user 1, who takes
    part in no competition. *)
Definition full_house : DB :=
  mkDB [mkCompetition 100]
       [teamT2]
       [mkParticipant 31 2 20; mkParticipant 32 3 20;
        mkParticipant 33 4 20; mkParticipant 34 5 20]
       [mkJoinRequest 40 20 1 true true]
       []
       41.

(** User 1 holds a participant row of team 10, whose row is gone. *)
Definition dangling : DB :=
  mkDB [mkCompetition 100]
       [teamT2]
       [mkParticipant 30 1 10; mkParticipant 31 2 20]
       []
       []
       40.

(** User 1 shares team 10 with user 6. *)
Definition shared_team : DB :=
  mkDB [mkCompetition 100]
       [teamT1; teamT2]
       [mkParticipant 30 1 10; mkParticipant 35 6 10; mkParticipant 31 2 20]
       [invitation]
       []
       42.

(** Team 20 has accepted user 7, who holds no participant row. *)
Definition stranger : UserDoc := mkUser 7.

Definition stranger_accepted : DB :=
  mkDB [mkCompetition 100]
       [teamT2]
       [mkParticipant 31 2 20]
       [mkJoinRequest 40 20 7 true true]
       []
       41.

(** The scenario once user 1 has consented to the invitation of team 20. *)
Definition consented : DB :=
  set_join_requests [mkJoinRequest 40 20 1 true true] scenario.

(** ** The rest of the library *)

Definition teams_by_competition (db : DB) (competitionId : Id) : list TeamDoc :=
  filter (fun item => team_competition item =? competitionId) (teams db).

(** [Promise.all]: the results in order, or the error of the first promise
    of the list that is rejected. *)
Fixpoint promise_all {A} (promises : list (Result A)) : Result (list A) :=
  match promises with
  | [] => Ok []
  | Throw e :: _ => Throw e
  | Ok a :: rest =>
      match promise_all rest with
      | Ok results => Ok (a :: results)
      | Throw e => Throw e
      end
  end.

Definition listCompetitionTeams (db : DB) (competitionId : Id)
  : Result (list TeamInfo) :=
  let teamRows := teams_by_competition db competitionId in
  let fullTeamInfo := map (fun item => verifyTeam db (team_id item)) teamRows in
  promise_all fullTeamInfo.

(** A participant row resolves into a competition when its team row exists
    and the competition row of that team exists and is that competition:
    the rows [listOwnParticipations] keeps and [findTeamOfUser] selects. *)
Definition resolves (db : DB) (competitionId : Id) (item : ParticipantDoc)
  : bool :=
  match get team_id (teams db) (participant_team item) with
  | None => false
  | Some team =>
      match get competition_id (competitions db) (team_competition team) with
      | None => false
      | Some competition => competition_id competition =? competitionId
      end
  end.

(** What [patch_participant_team] does to a row: [reassign] maps it over the
    participants. *)
Definition moved_to (rowId teamId : Id) (row : ParticipantDoc) : ParticipantDoc :=
  if participant_id row =? rowId then patch_team teamId row else row.

(** At most one participant row of the user on the team. *)
Definition single_membership (db : DB) (teamId userId : Id) : Prop :=
  forall r1 r2,
    In r1 (participants db) -> In r2 (participants db) ->
    participant_team r1 = teamId -> participant_user r1 = userId ->
    participant_team r2 = teamId -> participant_user r2 = userId ->
    r1 = r2.

(** Well-formedness of the store: identifiers are unique within a table and
    were assigned by earlier inserts. *)
Definition unique_team_ids (db : DB) : Prop :=
  NoDup (map team_id (teams db)).

Definition unique_participant_ids (db : DB) : Prop :=
  NoDup (map participant_id (participants db)).

Definition request_ids_assigned (db : DB) : Prop :=
  forall jr, In jr (join_requests db) -> jr_id jr < next_id db.

(** ** The chat component (Components/Chat)

    The component holds the draft [newMessage]; its handlers either leave
    the draft or clear it, and call [props.sendMessage] on the messages
    listed. *)
Module Chat.

Inductive Event :=
| Change (value : string)      (* onChange of the input *)
| KeyDown (key : string)       (* onKeyDown of the input *)
| Click.                       (* onClick of the button *)

(** [!newMessage]: the empty string is the falsy string. *)
Definition falsy (s : string) : bool :=
  match s with
  | EmptyString => true
  | String _ _ => false
  end.

Definition handleMessageSend (newMessage : string) : string * list string :=
  if falsy newMessage then (newMessage, [])
  else (EmptyString, [newMessage]).

Definition handleEnterPressed (key : string) (newMessage : string)
  : string * list string :=
  if String.eqb key "Enter" then handleMessageSend newMessage
  else (newMessage, []).

Definition handle (event : Event) (newMessage : string)
  : string * list string :=
  match event with
  | Change value => (value, [])
  | KeyDown key => handleEnterPressed key newMessage
  | Click => handleMessageSend newMessage
  end.

(** The draft after a sequence of events, and the messages sent. *)
Fixpoint run (events : list Event) (newMessage : string)
  : string * list string :=
  match events with
  | [] => (newMessage, [])
  | event :: rest =>
      let (draft, sent) := handle event newMessage in
      let (final, sent') := run rest draft in
      (final, sent ++ sent')
  end.

Definition changes (events : list Event) : list string :=
  flat_map (fun event => match event with
                         | Change value => [value]
                         | _ => []
                         end) events.

End Chat.

(** ** The landing page (pages/index) *)
Module Home.

(** [competitions.slice(-10)]: from ten before the end, or from the start
    of a shorter array. *)
Definition slice_last_ten {A} (competitions : list A) : list A :=
  skipn (length competitions - 10) competitions.

(** [useQuery("listCompetitions") || []], then the cards shown. *)
Definition shown {A} (query : option (list A)) : list A :=
  slice_last_ten match query with
                 | Some competitions => competitions
                 | None => []
                 end.

End Home.

(** Team 20 at the roster cap has accepted user 1, who owns team 10 alone. *)
Definition at_capacity : DB :=
  mkDB [mkCompetition 100]
       [teamT1; teamT2]
       [mkParticipant 30 1 10; mkParticipant 31 2 20; mkParticipant 32 3 20;
        mkParticipant 33 4 20; mkParticipant 34 5 20]
       [mkJoinRequest 40 20 1 true true]
       [mkJoinMessage 41 40 2 "join us"]
       42.

(** User 6 of team 10 has been accepted by team 20; team 10 has a pending
    request of user 3. *)
Definition leaving : DB :=
  mkDB [mkCompetition 100]
       [teamT1; teamT2]
       [mkParticipant 30 1 10; mkParticipant 35 6 10; mkParticipant 31 2 20]
       [mkJoinRequest 40 20 6 true true; mkJoinRequest 43 10 3 true false]
       [mkJoinMessage 41 40 6 "let me in"; mkJoinMessage 44 43 3 "hello"]
       45.

(** ** The effects of the mutator, table by table *)

(** The join requests of [db'] are those of [db] without the earliest
    request between the pair: all of them when there is none, and otherwise
    those that do not carry the identifier of the earliest. *)
Definition earliest_request_deleted (db db' : DB) (teamId userId : Id) : Prop :=
  (no_request_between db teamId userId ->
   join_requests db' = join_requests db)
  /\ (forall jr,
        first_request_between db teamId userId jr ->
        join_requests db'
        = filter (fun other => negb (jr_id other =? jr_id jr)) (join_requests db)).

(** The participants of [db'] are those of [db], the document [row] now
    pointing to [teamId]. *)
Definition row_reassigned (db db' : DB) (row : ParticipantDoc) (teamId : Id)
  : Prop :=
  participants db'
  = map (fun other =>
           if participant_id other =? participant_id row
           then mkParticipant (participant_id other) (participant_user other)
                              teamId
           else other)
        (participants db).

(** The teams of [db'] are those of [db], without the team [priorId] when its
    roster in [db] had one member. *)
Definition team_deleted_when_solo (db db' : DB) (priorId : Id) : Prop :=
  teams db'
  = if roster_size db priorId =? 1
    then filter (fun other => negb (team_id other =? priorId)) (teams db)
    else teams db.

(** The scenario once the recorder has also run from the side of user 1:
    two join requests between team 20 and user 1. *)
Definition two_requests : DB :=
  mkDB [mkCompetition 100]
       [teamT1; teamT2]
       [mkParticipant 30 1 10; mkParticipant 31 2 20; mkParticipant 32 3 20]
       [invitation; mkJoinRequest 42 20 1 true false]
       [mkJoinMessage 41 40 2 "join us"; mkJoinMessage 43 42 1 "count me in"]
       44.

(** The store [consented] once user 1 has joined team 20. *)
Definition joined : DB :=
  mkDB [mkCompetition 100]
       [teamT2]
       [mkParticipant 30 1 20; mkParticipant 31 2 20; mkParticipant 32 3 20]
       []
       [mkJoinMessage 41 40 2 "join us"]
       42.

(** ** Lists and store primitives *)

Lemma findIndex_existsb {A} (f : A -> bool) (l : list A) :
  (-1 <? findIndex f l)%Z = existsb f l.
Proof.
  assert (H : forall l', (-1 <= findIndex f l')%Z).
  { induction l' as [|x l' IH]; simpl; [lia|].
    destruct (f x); [lia|].
    destruct (findIndex f l' <? 0)%Z eqn:E; lia. }
  induction l as [|x l IH]; simpl; [reflexivity|].
  destruct (f x); simpl; [reflexivity|].
  rewrite <- IH. specialize (H l).
  destruct (findIndex f l <? 0)%Z eqn:E.
  - apply Z.ltb_lt in E. symmetry. apply Z.ltb_ge. lia.
  - apply Z.ltb_ge in E. transitivity true; [|symmetry]; apply Z.ltb_lt; lia.
Qed.

Lemma find_filter {A} (f g : A -> bool) (l : list A) :
  find g (filter f l) = find (fun x => f x && g x) l.
Proof.
  induction l as [|x l IH]; simpl; [reflexivity|].
  destruct (f x); simpl; [destruct (g x)|]; auto.
Qed.

Lemma find_split {A} (h : A -> bool) (l : list A) (x : A) :
  find h l = Some x <->
  exists l1 l2, l = l1 ++ x :: l2 /\ h x = true
                /\ forall y, In y l1 -> h y = false.
Proof.
  split.
  - induction l as [|a l IH]; simpl; [discriminate|].
    destruct (h a) eqn:E.
    + intros [= <-]. exists [], l. simpl. tauto.
    + intros H. destruct (IH H) as (l1 & l2 & -> & Hx & Hl1).
      exists (a :: l1), l2. simpl. repeat split; auto.
      intros y [<-|Hy]; auto.
  - intros (l1 & l2 & -> & Hx & Hl1).
    induction l1 as [|a l1 IH]; simpl.
    + now rewrite Hx.
    + rewrite (Hl1 a) by now left. apply IH. intros y Hy. apply Hl1. now right.
Qed.

Lemma get_Some {A} (key : A -> Id) (table : list A) (id : Id) (row : A) :
  get key table id = Some row -> In row table /\ key row = id.
Proof.
  unfold get. intros H. apply find_some in H as [H1 H2].
  apply Nat.eqb_eq in H2. auto.
Qed.

Lemma get_None {A} (key : A -> Id) (table : list A) (id : Id) :
  get key table id = None <-> forall row, In row table -> key row <> id.
Proof.
  unfold get. split.
  - intros H row Hin. apply Nat.eqb_neq. now apply (find_none _ _ H).
  - intros H. destruct (find _ table) as [row|] eqn:E; [|reflexivity].
    apply find_some in E as [E1 E2]. apply Nat.eqb_eq in E2.
    now destruct (H row E1).
Qed.

Lemma between_spec (teamId userId : Id) (jr : JoinRequestDoc) :
  between teamId userId jr = true <-> request_between teamId userId jr.
Proof.
  unfold between, request_between.
  rewrite andb_true_iff, !Nat.eqb_eq. tauto.
Qed.

Lemma between_false (teamId userId : Id) (jr : JoinRequestDoc) :
  between teamId userId jr = false <-> ~ request_between teamId userId jr.
Proof.
  rewrite <- between_spec. destruct (between teamId userId jr); intuition congruence.
Qed.

(** The request the by-team range and the user test find for a pair. *)
Lemma find_request_between (db : DB) (teamId userId : Id) :
  find (fun item => jr_user item =? userId) (join_requests_by_team db teamId)
  = find (between teamId userId) (join_requests db).
Proof. unfold join_requests_by_team. now rewrite find_filter. Qed.

Lemma find_request_first (db : DB) (teamId userId : Id) (jr : JoinRequestDoc) :
  find (between teamId userId) (join_requests db) = Some jr
  <-> first_request_between db teamId userId jr.
Proof.
  rewrite find_split. unfold first_request_between.
  split; intros (l1 & l2 & E & Hx & Hl1); exists l1, l2;
    (split; [exact E | split]).
  - now apply between_spec.
  - intros x Hin. apply between_false. auto.
  - now apply between_spec.
  - intros x Hin. apply between_false. auto.
Qed.

Lemma find_request_none (db : DB) (teamId userId : Id) :
  find (between teamId userId) (join_requests db) = None
  <-> no_request_between db teamId userId.
Proof.
  unfold no_request_between. split.
  - intros H jr Hin. apply between_false. now apply (find_none _ _ H).
  - intros H. destruct (find _ _) as [jr|] eqn:E; [|reflexivity].
    apply find_some in E as [E1 E2]. apply between_spec in E2.
    now destruct (H jr E1).
Qed.

Lemma member_existsb (db : DB) (teamId userId : Id) :
  existsb (fun item => participant_user item =? userId)
          (participants_by_team db teamId) = true
  <-> is_member db teamId userId.
Proof.
  unfold is_member, participants_by_team. rewrite existsb_exists. split.
  - intros (p & Hin & Hu). apply filter_In in Hin as [Hin Ht].
    apply Nat.eqb_eq in Hu, Ht. eauto.
  - intros (p & Hin & Ht & Hu). exists p. rewrite filter_In, !Nat.eqb_eq. auto.
Qed.

Lemma not_member_existsb (db : DB) (teamId userId : Id) :
  ~ is_member db teamId userId ->
  existsb (fun item => participant_user item =? userId)
          (participants_by_team db teamId) = false.
Proof.
  rewrite <- member_existsb. now destruct (existsb _ _).
Qed.

(** ** Participations and the team of a user *)

Lemma In_listOwnParticipations (db : DB) (user : UserDoc) (x : Participation) :
  In x (listOwnParticipations db user) <->
  In (participation x) (participants db)
  /\ participant_user (participation x) = user_id user
  /\ get team_id (teams db) (participant_team (participation x)) = Some (team x)
  /\ get competition_id (competitions db) (team_competition (team x))
     = Some (competition x).
Proof.
  unfold listOwnParticipations, fulfillAndFlatten, participants_by_user.
  rewrite in_concat. split.
  - intros (l & Hl & Hx). apply in_map_iff in Hl as (item & <- & Hitem).
    apply filter_In in Hitem as [Hin Hu]. apply Nat.eqb_eq in Hu.
    destruct (get team_id _ _) as [t|] eqn:Et; [|destruct Hx].
    destruct (get competition_id _ _) as [c|] eqn:Ec; [|destruct Hx].
    destruct Hx as [<-|[]]. simpl. auto.
  - intros (Hin & Hu & Et & Ec).
    exists [x]. split; [|now left].
    apply in_map_iff. exists (participation x). split.
    + rewrite Et, Ec. now destruct x.
    + apply filter_In. split; [exact Hin|]. now apply Nat.eqb_eq.
Qed.

Lemma findTeamOfUser_cases (db : DB) (user : UserDoc) (competitionId : Id) :
  (findTeamOfUser db user competitionId = Ok None
   /\ ~ resolvable_team db (user_id user) competitionId)
  \/ (exists found,
        findTeamOfUser db user competitionId = Ok (Some found)
        /\ team_of_user_found db user competitionId found
        /\ resolvable_team db (user_id user) competitionId).
Proof.
  unfold findTeamOfUser.
  destruct (find _ (listOwnParticipations db user)) as [cp|] eqn:E.
  - right. apply find_some in E as [Hin Hc]. apply Nat.eqb_eq in Hc.
    apply In_listOwnParticipations in Hin as (Hin & Hu & Et & Ec).
    destruct (get_Some _ _ _ _ Et) as [_ Hid].
    destruct (get_Some _ _ _ _ Ec) as [_ Hcid].
    unfold verifyTeam. rewrite Hid, Et.
    eexists. split; [reflexivity|]. split.
    + constructor; simpl; rewrite ?Hid; auto; congruence.
    + exists (participation cp), (team cp), (competition cp).
      repeat split; auto; congruence.
  - left. split; [reflexivity|].
    intros (p & t & c & Hin & Hu & Et & Hc & Ec).
    assert (Hx : In (mkParticipation p t c) (listOwnParticipations db user)).
    { apply In_listOwnParticipations. simpl. repeat split; auto. congruence. }
    apply (find_none _ _ E) in Hx. simpl in Hx.
    destruct (get_Some _ _ _ _ Ec) as [_ Hcid].
    rewrite Hcid, Nat.eqb_refl in Hx. discriminate.
Qed.



Lemma found_roster (db : DB) (user : UserDoc) (competitionId : Id)
    (found : TeamOfUser) :
  team_of_user_found db user competitionId found ->
  length (members (teamAndMembers found))
  = roster_size db (team_id (info_team (teamAndMembers found))).
Proof.
  intros H. rewrite (found_members _ _ _ _ H). unfold roster_size.
  now rewrite !length_map.
Qed.

(** ** The validator *)

(** The validator once the membership and capacity tests have passed. *)
Lemma validate_past_capacity (db : DB) (inviterTeam : TeamDoc) (joiner : UserDoc) :
  ~ is_member db (team_id inviterTeam) (user_id joiner) ->
  roster_size db (team_id inviterTeam) < 4 ->
  validateTeamJoinRequest db inviterTeam joiner
  = match findTeamOfUser db joiner (team_competition inviterTeam) with
    | Throw e => Throw e
    | Ok None => Throw UserNotInCompetition
    | Ok (Some joinerTeam) =>
        if 1 <? length (members (teamAndMembers joinerTeam)) then Ok COMMITTED
        else
          match find (between (team_id inviterTeam) (user_id joiner))
                     (join_requests db) with
          | None => Ok VALID
          | Some joinRequest =>
              Ok (consent_state (jr_teamConsent joinRequest)
                                (jr_userConsent joinRequest))
          end
    end.
Proof.
  intros Hmem Hsize. unfold validateTeamJoinRequest.
  rewrite findIndex_existsb, (not_member_existsb _ _ _ Hmem).
  unfold roster_size in Hsize.
  destruct (4 <=? _) eqn:E; [apply Nat.leb_le in E; lia|].
  destruct (findTeamOfUser _ _ _) as [[jt|]|e]; try reflexivity.
  destruct (1 <? _); [reflexivity|].
  rewrite find_request_between.
  destruct (find _ _) as [jr|]; [|reflexivity].
  now destruct (jr_teamConsent jr), (jr_userConsent jr).
Qed.



(** C5.  When the inviting team's roster has four members or more and the
    joiner is not one of them, the validator answers FULL, whatever join
    requests the store holds and whatever team, if any, the joiner has. *)
Theorem validate_full (db : DB) (inviterTeam : TeamDoc) (joiner : UserDoc) :
  ~ is_member db (team_id inviterTeam) (user_id joiner) ->
  4 <= roster_size db (team_id inviterTeam) ->
  validateTeamJoinRequest db inviterTeam joiner = Ok FULL.
Proof.
  intros Hmem Hsize. unfold validateTeamJoinRequest.
  rewrite findIndex_existsb, (not_member_existsb _ _ _ Hmem).
  unfold roster_size in Hsize. apply Nat.leb_le in Hsize. now rewrite Hsize.
Qed.

Lemma validate_full_witness :
  validateTeamJoinRequest full_house teamT2 userA = Ok FULL.
Proof.
  apply validate_full.
  - intros H. apply member_existsb in H. discriminate H.
  - vm_compute. lia.
Defined.

(** C6.  With the joiner outside the inviting team and its roster below
    four, the validator raises the authorization error exactly when the
    joiner has no participant row whose team and competition rows both exist
    with that competition being the inviting team's; it raises no other
    error; and it raises it in particular when every participant row of the
    joiner refers to a team row that is gone or to a team whose competition
    row is gone. *)
Theorem validate_not_in_competition (db : DB) (inviterTeam : TeamDoc)
    (joiner : UserDoc) :
  ~ is_member db (team_id inviterTeam) (user_id joiner) ->
  roster_size db (team_id inviterTeam) < 4 ->
  (validateTeamJoinRequest db inviterTeam joiner = Throw UserNotInCompetition
   <-> ~ resolvable_team db (user_id joiner) (team_competition inviterTeam))
  /\ (forall e, validateTeamJoinRequest db inviterTeam joiner = Throw e ->
                e = UserNotInCompetition)
  /\ ((forall p, In p (participants db) ->
                 participant_user p = user_id joiner ->
                 match get team_id (teams db) (participant_team p) with
                 | None => True
                 | Some t =>
                     get competition_id (competitions db) (team_competition t)
                     = None
                 end) ->
      validateTeamJoinRequest db inviterTeam joiner = Throw UserNotInCompetition).
Proof.
  intros Hmem Hsize.
  rewrite (validate_past_capacity _ _ _ Hmem Hsize).
  assert (Hiff :
    match findTeamOfUser db joiner (team_competition inviterTeam) with
    | Throw e => Throw e
    | Ok None => Throw UserNotInCompetition
    | Ok (Some joinerTeam) =>
        if 1 <? length (members (teamAndMembers joinerTeam)) then Ok COMMITTED
        else
          match find (between (team_id inviterTeam) (user_id joiner))
                     (join_requests db) with
          | None => Ok VALID
          | Some joinRequest =>
              Ok (consent_state (jr_teamConsent joinRequest)
                                (jr_userConsent joinRequest))
          end
    end = Throw UserNotInCompetition
    <-> ~ resolvable_team db (user_id joiner) (team_competition inviterTeam)).
  { destruct (findTeamOfUser_cases db joiner (team_competition inviterTeam))
      as [[E H]|(found & E & _ & H)]; rewrite E.
    - tauto.
    - split; [|tauto].
      destruct (1 <? _); [discriminate|]. destruct (find _ _); discriminate. }
  split; [exact Hiff|]. split.
  - destruct (findTeamOfUser_cases db joiner (team_competition inviterTeam))
      as [[E H]|(found & E & _ & H)]; rewrite E.
    + now intros e [= <-].
    + intros e. destruct (1 <? _); [discriminate|].
      destruct (find _ _); discriminate.
  - intros Hdangling. apply Hiff.
    intros (p & t & c & Hin & Hu & Et & Hc & Ec).
    specialize (Hdangling p Hin Hu). rewrite Et, Hc, Ec in Hdangling.
    discriminate.
Qed.

Lemma validate_not_in_competition_witness :
  validateTeamJoinRequest dangling teamT2 userA = Throw UserNotInCompetition.
Proof.
  refine (proj2 (proj2 (validate_not_in_competition dangling teamT2 userA _ _)) _).
  - intros H. apply member_existsb in H. discriminate H.
  - vm_compute. lia.
  - intros p [<-|[<-|[]]]; simpl; intros H; [exact I|discriminate H].
Defined.



(** The validator reads the competitions, the teams, the participants and
    the earliest join request between the pair, and nothing else. *)
Lemma validateTeamJoinRequest_frame (db db' : DB) (inviterTeam : TeamDoc)
    (joiner : UserDoc) :
  competitions db' = competitions db ->
  teams db' = teams db ->
  participants db' = participants db ->
  find (between (team_id inviterTeam) (user_id joiner)) (join_requests db')
  = find (between (team_id inviterTeam) (user_id joiner)) (join_requests db) ->
  validateTeamJoinRequest db' inviterTeam joiner
  = validateTeamJoinRequest db inviterTeam joiner.
Proof.
  intros Hc Ht Hp Hj.
  unfold validateTeamJoinRequest, findTeamOfUser, listOwnParticipations,
    verifyTeam, participants_by_team, participants_by_user.
  rewrite !find_request_between, Hc, Ht, Hp, Hj.
  destruct (_ <? _)%Z; [reflexivity|].
  destruct (4 <=? _); [reflexivity|].
  destruct (find _ (fulfillAndFlatten _)) as [cp|]; [|reflexivity].
  destruct (get team_id _ _); reflexivity.
Qed.

(** ** The cross-chat guard *)

(** C8.  For a join request whose team row exists, the guard returns a
    boolean, and it is true exactly when the viewer holds a participant row
    of that team at the time of the call or is the joining user; a viewer
    who holds no such row any more and is not the joining user gets false. *)
Theorem crosschat_members_and_joiner (db : DB) (joinRequestInfo : JoinRequestDoc)
    (viewer : Id) (invitingTeam : TeamDoc) :
  get team_id (teams db) (jr_team joinRequestInfo) = Some invitingTeam ->
  (exists allowed,
      validateCrossChatParticipation db joinRequestInfo viewer = Ok allowed
      /\ (allowed = true <->
          is_member db (jr_team joinRequestInfo) viewer
          \/ jr_user joinRequestInfo = viewer))
  /\ (~ is_member db (jr_team joinRequestInfo) viewer ->
      jr_user joinRequestInfo <> viewer ->
      validateCrossChatParticipation db joinRequestInfo viewer = Ok false).
Proof.
  intros Hteam.
  assert (Hmem :
    existsb (fun member => user_id member =? viewer)
      (convertToUserDocumentArray db
         (map participant_user
              (participants_by_team db (jr_team joinRequestInfo))))
    = existsb (fun item => participant_user item =? viewer)
        (participants_by_team db (jr_team joinRequestInfo))).
  { unfold convertToUserDocumentArray.
    induction (participants_by_team db (jr_team joinRequestInfo)) as [|p l IH];
      simpl; [reflexivity|]. now rewrite IH. }
  unfold validateCrossChatParticipation, verifyTeam. rewrite Hteam. simpl.
  rewrite Hmem. split.
  - eexists. split; [reflexivity|].
    rewrite orb_true_iff, member_existsb, Nat.eqb_eq. tauto.
  - intros Hout Hother. rewrite (not_member_existsb _ _ _ Hout).
    apply Nat.eqb_neq in Hother. now rewrite Hother.
Qed.

Lemma crosschat_members_and_joiner_witness :
  validateCrossChatParticipation shared_team invitation 6 = Ok false.
Proof.
  refine (proj2 (crosschat_members_and_joiner shared_team invitation 6 teamT2 _)
                _ _).
  - reflexivity.
  - intros H. apply member_existsb in H. discriminate H.
  - discriminate.
Defined.

(** C10.  For a join request whose team row is gone, the guard does not
    return false: it raises the not-found error of [verifyTeam]; it returns
    a boolean exactly when the team row exists. *)
Theorem crosschat_team_gone (db : DB) (joinRequestInfo : JoinRequestDoc)
    (viewer : Id) :
  (get team_id (teams db) (jr_team joinRequestInfo) = None ->
   validateCrossChatParticipation db joinRequestInfo viewer
   = Throw TeamDoesNotExist)
  /\ ((exists allowed,
          validateCrossChatParticipation db joinRequestInfo viewer = Ok allowed)
      <-> get team_id (teams db) (jr_team joinRequestInfo) <> None).
Proof.
  unfold validateCrossChatParticipation, verifyTeam.
  destruct (get team_id (teams db) (jr_team joinRequestInfo)) as [t|].
  - split; [discriminate|]. split; [discriminate|]. intros _. eexists. reflexivity.
  - split; [reflexivity|]. split; [intros [b Hb]; discriminate|]. now intros H.
Qed.

Lemma crosschat_team_gone_witness :
  validateCrossChatParticipation dangling (mkJoinRequest 40 10 2 false true) 1
  = Throw TeamDoesNotExist.
Proof.
  apply (proj1 (crosschat_team_gone dangling (mkJoinRequest 40 10 2 false true) 1)).
  reflexivity.
Defined.

(** ** The recorder *)

Lemma recordJoinRequest_run (db : DB) (auth : Auth) (sender : UserDoc)
    (inviterTeamId joinerId : Id) (pitch : string) (teamConsent : bool) :
  verifyUser db auth = Ok sender ->
  recordJoinRequest auth inviterTeamId joinerId pitch teamConsent db
  = (Ok (next_id db),
     mkDB (competitions db) (teams db) (participants db)
          (join_requests db
           ++ [mkJoinRequest (next_id db) inviterTeamId joinerId
                             (negb teamConsent) teamConsent])
          (join_messages db
           ++ [mkJoinMessage (S (next_id db)) (next_id db) (user_id sender) pitch])
          (S (S (next_id db)))).
Proof.
  intros Hauth. unfold recordJoinRequest, bind, read. rewrite Hauth. reflexivity.
Qed.

(** C7.  Once the identity resolver has resolved the caller, the recorder
    appends exactly one join request for the team and the joiner, whose user
    consent is the negation of the team consent passed, appends exactly one
    join message of that request carrying the pitch, leaves the other tables
    as they are, and returns the identifier of the request it appended. *)
Theorem recordJoinRequest_effect (db : DB) (auth : Auth) (sender : UserDoc)
    (inviterTeamId joinerId : Id) (pitch : string) (teamConsent : bool) :
  verifyUser db auth = Ok sender ->
  exists newJoinRequest db' messageId,
    recordJoinRequest auth inviterTeamId joinerId pitch teamConsent db
    = (Ok newJoinRequest, db')
    /\ join_requests db'
       = join_requests db
         ++ [mkJoinRequest newJoinRequest inviterTeamId joinerId
                           (negb teamConsent) teamConsent]
    /\ join_messages db'
       = join_messages db
         ++ [mkJoinMessage messageId newJoinRequest (user_id sender) pitch]
    /\ competitions db' = competitions db
    /\ teams db' = teams db
    /\ participants db' = participants db.
Proof.
  intros Hauth. do 3 eexists.
  rewrite (recordJoinRequest_run _ _ _ _ _ _ _ Hauth).
  split; [reflexivity|]. simpl. repeat split.
Qed.

Lemma recordJoinRequest_effect_witness :
  exists newJoinRequest db' messageId,
    recordJoinRequest (Some (mkUser 2)) 20 1 "join us" true
                      (set_join_messages [] (set_join_requests [] scenario))
    = (Ok newJoinRequest, db')
    /\ join_requests db' = [] ++ [mkJoinRequest newJoinRequest 20 1 false true]
    /\ join_messages db' = [] ++ [mkJoinMessage messageId newJoinRequest 2 "join us"]
    /\ competitions db' = [mkCompetition 100]
    /\ teams db' = [teamT1; teamT2]
    /\ participants db'
       = [mkParticipant 30 1 10; mkParticipant 31 2 20; mkParticipant 32 3 20].
Proof.
  apply (recordJoinRequest_effect
           (set_join_messages [] (set_join_requests [] scenario))
           (Some (mkUser 2)) (mkUser 2) 20 1 "join us" true).
  reflexivity.
Defined.

(** ** The membership mutator *)

Lemma get_In {A} (key : A -> Id) (table : list A) (row : A) :
  In row table -> exists row', get key table (key row) = Some row'.
Proof.
  intros Hin. destruct (get key table (key row)) as [row'|] eqn:E; [eauto|].
  rewrite get_None in E. now destruct (E row Hin).
Qed.

Lemma without_first_request_tables (db : DB) (teamId userId : Id) :
  competitions (without_first_request db teamId userId) = competitions db
  /\ teams (without_first_request db teamId userId) = teams db
  /\ participants (without_first_request db teamId userId) = participants db
  /\ join_messages (without_first_request db teamId userId) = join_messages db
  /\ next_id (without_first_request db teamId userId) = next_id db.
Proof.
  unfold without_first_request. destruct (find _ _); repeat split.
Qed.

(** The two runs of [addUserToTeam], with the row it reassigns: the first
    row of the user among those of the team [findTeamOfUser] found. *)
Lemma addUserToTeam_run_row (db : DB) (user : UserDoc) (invitingTeam : TeamDoc) :
  let db1 := without_first_request db (team_id invitingTeam) (user_id user) in
  match findTeamOfUser db1 user (team_competition invitingTeam) with
  | Throw _ => False
  | Ok None => addUserToTeam user invitingTeam db = (Throw UserNotInCompetition, db1)
  | Ok (Some found) =>
      let prior := team_id (info_team (teamAndMembers found)) in
      exists row,
        find (fun item => participant_user item =? user_id user)
             (participants_by_team db prior) = Some row
        /\ In row (participants db)
        /\ participant_user row = user_id user
        /\ participant_team row = prior
        /\ addUserToTeam user invitingTeam db
           = (Ok tt,
              if roster_size db prior =? 1
              then remove_team prior
                     (reassign (participant_id row) (team_id invitingTeam) db1)
              else reassign (participant_id row) (team_id invitingTeam) db1)
  end.
Proof.
  intros db1.
  assert (Hstep1 : forall B (k : M B),
            bind (read (fun db =>
                    Ok (find (fun item => jr_user item =? user_id user)
                          (join_requests_by_team db (team_id invitingTeam)))))
                  (fun o => bind match o with
                            | Some request => delete_join_request (jr_id request)
                            | None => ret tt
                            end (fun _ => k)) db = k db1).
  { intros B k. unfold bind, read. rewrite find_request_between.
    subst db1. unfold without_first_request.
    destruct (find _ _) as [r|] eqn:E; [|reflexivity].
    apply find_some in E as [Hin _].
    unfold delete_join_request.
    destruct (get_In jr_id _ _ Hin) as [r' ->]. reflexivity. }
  destruct (without_first_request_tables db (team_id invitingTeam) (user_id user))
    as (Hc & Ht & Hp & _).
  fold db1 in Hc, Ht, Hp.
  destruct (findTeamOfUser_cases db1 user (team_competition invitingTeam))
    as [[E _]|(found & E & Hf & _)]; rewrite E; cbv zeta;
    unfold addUserToTeam; rewrite Hstep1; clear Hstep1;
    unfold bind at 1; unfold read at 1; rewrite E.
  - reflexivity.
  - pose proof (found_row _ _ _ _ Hf) as Hrow.
    pose proof (found_user _ _ _ _ Hf) as Huser.
    pose proof (found_team_id _ _ _ _ Hf) as Hid.
    assert (Hrow' : In (userMembership found)
                       (participants_by_team db1
                          (team_id (info_team (teamAndMembers found))))).
    { apply filter_In. split; [exact Hrow|]. rewrite Hid. apply Nat.eqb_refl. }
    rewrite Hp in Hrow.
    unfold bind at 1. unfold read at 1.
    destruct (find _ (participants_by_team db1 _)) as [row|] eqn:Efind.
    + pose proof Efind as Hfirst.
      unfold participants_by_team in Hfirst. rewrite Hp in Hfirst.
      apply find_some in Efind as [Hin Hu]. apply Nat.eqb_eq in Hu.
      unfold participants_by_team in Hin. rewrite Hp in Hin.
      apply filter_In in Hin as [Hin Hteam]. apply Nat.eqb_eq in Hteam.
      exists row. split; [exact Hfirst|]. repeat split; auto.
      unfold bind, patch_participant_team. rewrite Hp.
      destruct (get_In participant_id _ _ Hin) as [row' ->].
      rewrite (found_roster _ _ _ _ Hf).
      replace (roster_size db1) with (roster_size db)
        by (unfold roster_size, participants_by_team; now rewrite Hp).
      destruct (roster_size db _ =? 1); [|reflexivity].
      unfold delete_team.
      change (teams (reassign (participant_id row) (team_id invitingTeam) db1))
        with (teams db1).
      rewrite Hid, (found_team _ _ _ _ Hf). reflexivity.
    + exfalso. apply (find_none _ _ Efind) in Hrow'.
      rewrite Huser, Nat.eqb_refl in Hrow'. discriminate.
Qed.

(** The two runs of [addUserToTeam]: it throws the authorization error with
    the pair's earliest join request already deleted, or it returns with
    every step applied. *)
Lemma addUserToTeam_run (db : DB) (user : UserDoc) (invitingTeam : TeamDoc) :
  let db1 := without_first_request db (team_id invitingTeam) (user_id user) in
  match findTeamOfUser db1 user (team_competition invitingTeam) with
  | Throw _ => False
  | Ok None => addUserToTeam user invitingTeam db = (Throw UserNotInCompetition, db1)
  | Ok (Some found) =>
      let prior := team_id (info_team (teamAndMembers found)) in
      exists row,
        In row (participants db)
        /\ participant_user row = user_id user
        /\ participant_team row = prior
        /\ addUserToTeam user invitingTeam db
           = (Ok tt,
              if roster_size db prior =? 1
              then remove_team prior
                     (reassign (participant_id row) (team_id invitingTeam) db1)
              else reassign (participant_id row) (team_id invitingTeam) db1)
  end.
Proof.
  intros db1.
  pose proof (addUserToTeam_run_row db user invitingTeam) as H. cbv zeta in H.
  fold db1 in H.
  destruct (findTeamOfUser db1 user (team_competition invitingTeam))
    as [[found|]|e]; auto.
  destruct H as (row & _ & H). now exists row.
Qed.

Lemma resolvable_team_frame (db db' : DB) (userId competitionId : Id) :
  competitions db' = competitions db ->
  teams db' = teams db ->
  participants db' = participants db ->
  resolvable_team db' userId competitionId
  <-> resolvable_team db userId competitionId.
Proof.
  intros Hc Ht Hp. unfold resolvable_team. rewrite Hc, Ht, Hp. tauto.
Qed.

Lemma get_removed {A} (key : A -> Id) (table : list A) (id : Id) :
  get key (filter (fun row => negb (key row =? id)) table) id = None.
Proof.
  apply get_None. intros row Hin Hkey. apply filter_In in Hin as [_ Hne].
  apply Nat.eqb_eq in Hkey. rewrite Hkey in Hne. discriminate.
Qed.

Lemma first_request_deleted (db : DB) (teamId userId : Id) :
  join_requests (without_first_request db teamId userId) = join_requests db
  <-> no_request_between db teamId userId.
Proof.
  rewrite <- find_request_none. unfold without_first_request.
  destruct (find _ _) as [r|] eqn:E; simpl; [|tauto].
  split; [|discriminate]. intros Hsame.
  apply find_some in E as [Hin _]. rewrite <- Hsame in Hin.
  apply filter_In in Hin as [_ Hne]. rewrite Nat.eqb_refl in Hne. discriminate.
Qed.

Lemma single_request_deleted (db : DB) (teamId userId : Id) :
  at_most_one_request db teamId userId ->
  no_request_between (without_first_request db teamId userId) teamId userId.
Proof.
  intros Hone. unfold without_first_request.
  destruct (find _ _) as [r|] eqn:E.
  - apply find_split in E as (l1 & l2 & Hl & Hr & _).
    apply between_spec in Hr.
    intros x Hin. simpl in Hin. apply filter_In in Hin as [Hin Hne].
    apply (Hone l1 r l2 Hl Hr). rewrite Hl in Hin.
    apply in_app_or in Hin as [Hin|[<-|Hin]]; apply in_or_app; auto.
    rewrite Nat.eqb_refl in Hne. discriminate.
  - now apply find_request_none.
Qed.

Lemma requests_without_first (db : DB) (teamId userId : Id) :
  earliest_request_deleted db (without_first_request db teamId userId)
                           teamId userId.
Proof.
  unfold earliest_request_deleted, without_first_request. split.
  - intros Hnone. apply find_request_none in Hnone. now rewrite Hnone.
  - intros jr Hfirst. apply find_request_first in Hfirst. now rewrite Hfirst.
Qed.

Lemma earliest_request_deleted_requests (db db' : DB) (teamId userId : Id) :
  earliest_request_deleted db db' teamId userId ->
  join_requests db'
  = join_requests (without_first_request db teamId userId).
Proof.
  intros [Hnone Hfirst]. unfold without_first_request.
  destruct (find (between teamId userId) (join_requests db)) as [jr|] eqn:E.
  - apply find_request_first in E. now rewrite (Hfirst jr E).
  - apply find_request_none in E. now rewrite (Hnone E).
Qed.

(** The two runs of [addUserToTeam], table by table. *)
Lemma addUserToTeam_steps (db : DB) (user : UserDoc) (invitingTeam : TeamDoc) :
  (resolvable_team db (user_id user) (team_competition invitingTeam)
   /\ exists db' row prior,
        addUserToTeam user invitingTeam db = (Ok tt, db')
        /\ In row (participants db)
        /\ participant_user row = user_id user
        /\ participant_team row = team_id prior
        /\ get team_id (teams db) (team_id prior) = Some prior
        /\ team_competition prior = team_competition invitingTeam
        /\ earliest_request_deleted db db' (team_id invitingTeam) (user_id user)
        /\ row_reassigned db db' row (team_id invitingTeam)
        /\ team_deleted_when_solo db db' (team_id prior)
        /\ competitions db' = competitions db
        /\ join_messages db' = join_messages db
        /\ next_id db' = next_id db)
  \/ (~ resolvable_team db (user_id user) (team_competition invitingTeam)
      /\ exists db',
           addUserToTeam user invitingTeam db = (Throw UserNotInCompetition, db')
           /\ earliest_request_deleted db db' (team_id invitingTeam)
                                       (user_id user)
           /\ competitions db' = competitions db
           /\ teams db' = teams db
           /\ participants db' = participants db
           /\ join_messages db' = join_messages db
           /\ next_id db' = next_id db).
Proof.
  pose proof (addUserToTeam_run db user invitingTeam) as H. cbv zeta in H.
  pose proof (requests_without_first db (team_id invitingTeam) (user_id user))
    as Hjr.
  destruct (without_first_request_tables db (team_id invitingTeam) (user_id user))
    as (Hc & Ht & Hp & Hm & Hn).
  set (db1 := without_first_request db (team_id invitingTeam) (user_id user)) in *.
  pose proof (resolvable_team_frame db db1 (user_id user)
                (team_competition invitingTeam) Hc Ht Hp) as Hres.
  destruct (findTeamOfUser_cases db1 user (team_competition invitingTeam))
    as [[E Hno]|(found & E & Hf & Hyes)]; rewrite E in H.
  - right. split; [tauto|]. exists db1. repeat (split; [assumption|]).
    assumption.
  - left. split; [tauto|].
    destruct H as (row & Hin & Hu & Hteam & H).
    eexists. exists row, (info_team (teamAndMembers found)).
    split; [exact H|]. split; [exact Hin|]. split; [exact Hu|].
    split; [exact Hteam|]. split.
    { rewrite <- Ht. rewrite (found_team_id _ _ _ _ Hf).
      apply (found_team _ _ _ _ Hf). }
    split; [exact (found_competition _ _ _ _ Hf)|].
    unfold row_reassigned, team_deleted_when_solo.
    destruct (roster_size db (team_id (info_team (teamAndMembers found))) =? 1);
      simpl; rewrite ?Hc, ?Ht, ?Hp, ?Hm, ?Hn; repeat split; try reflexivity;
      try (apply Hjr).
Qed.

(** C2, as the code has it.  When [addUserToTeam] returns, the earliest join
    request between the user and the inviting team is deleted, so that no
    join request lies between them if at most one did before (invariant I3);
    the participant row of the user on the prior team, a team of the
    inviting team's competition, now has the inviting team's identifier as
    its team and the other rows are as before; and the prior team's row is
    gone exactly when its roster had one member, the teams staying as they
    were and the prior team keeping its other members otherwise. *)
Theorem addUserToTeam_moves_user (db : DB) (user : UserDoc)
    (invitingTeam : TeamDoc) (db' : DB) :
  addUserToTeam user invitingTeam db = (Ok tt, db') ->
  (earliest_request_deleted db db' (team_id invitingTeam) (user_id user)
   /\ (forall jr,
         first_request_between db (team_id invitingTeam) (user_id user) jr ->
         ~ In jr (join_requests db'))
   /\ (at_most_one_request db (team_id invitingTeam) (user_id user) ->
       no_request_between db' (team_id invitingTeam) (user_id user)))
  /\ exists row prior,
       In row (participants db)
       /\ participant_user row = user_id user
       /\ get team_id (teams db) (participant_team row) = Some prior
       /\ team_competition prior = team_competition invitingTeam
       /\ row_reassigned db db' row (team_id invitingTeam)
       /\ (exists moved,
              In moved (participants db')
              /\ participant_id moved = participant_id row
              /\ participant_user moved = user_id user
              /\ participant_team moved = team_id invitingTeam)
       /\ (get team_id (teams db') (team_id prior) = None
           <-> roster_size db (team_id prior) = 1)
       /\ (roster_size db (team_id prior) <> 1 ->
           teams db' = teams db
           /\ get team_id (teams db') (team_id prior) = Some prior
           /\ forall other,
                In other (participants db) ->
                participant_team other = team_id prior ->
                participant_id other <> participant_id row ->
                In other (participants db')
                /\ participant_team other = team_id prior).
Proof.
  intros Hrun.
  destruct (addUserToTeam_steps db user invitingTeam)
    as [(_ & db2 & row & prior & Hrun2 & Hin & Hu & Hteam & Hprior & Hcomp
         & Hjr & Hrow & Hteams & _)|(_ & db2 & Hrun2 & _)];
    rewrite Hrun2 in Hrun; [|discriminate].
  injection Hrun as <-.
  split; [split; [exact Hjr|split]|].
  - intros jr Hfirst Hin'. destruct Hjr as [_ Hjr].
    rewrite (Hjr jr Hfirst) in Hin'. apply filter_In in Hin' as [_ Hne].
    rewrite Nat.eqb_refl in Hne. discriminate.
  - intros Hone. unfold no_request_between.
    rewrite (earliest_request_deleted_requests _ _ _ _ Hjr).
    now apply single_request_deleted.
  - exists row, prior. rewrite Hteam.
    split; [exact Hin|]. split; [exact Hu|]. split; [exact Hprior|].
    split; [exact Hcomp|]. split; [exact Hrow|].
    unfold row_reassigned in Hrow. unfold team_deleted_when_solo in Hteams.
    split; [|split].
    + exists (mkParticipant (participant_id row) (participant_user row)
                            (team_id invitingTeam)).
      split; [|now split]. rewrite Hrow. apply in_map_iff. exists row.
      now rewrite Nat.eqb_refl.
    + rewrite Hteams.
      destruct (roster_size db (team_id prior) =? 1) eqn:Esize.
      * apply Nat.eqb_eq in Esize. split; [auto|]. intros _. apply get_removed.
      * apply Nat.eqb_neq in Esize. rewrite Hprior.
        split; [discriminate|tauto].
    + intros Hsize. apply Nat.eqb_neq in Hsize. rewrite Hsize in Hteams.
      split; [exact Hteams|]. split; [now rewrite Hteams|].
      intros other Hother Hoteam Hne. split; [|exact Hoteam].
      rewrite Hrow. apply in_map_iff. exists other.
      apply Nat.eqb_neq in Hne. now rewrite Hne.
Qed.

Lemma addUserToTeam_moves_user_witness :
  no_request_between joined 20 1.
Proof.
  refine (proj2 (proj2 (proj1
            (addUserToTeam_moves_user consented userA teamT2 joined _))) _).
  - reflexivity.
  - intros before jr after Hl Hjr x Hin.
    destruct before as [|a [|b before]]; try discriminate Hl.
    injection Hl as <- <-. destruct Hin.
Defined.

(** C2 as stated fails: on the store the recorder itself builds from the
    scenario, with two join requests between team 20 and user 1, the run
    returns and the second request still lies between the pair. *)
Lemma addUserToTeam_keeps_second_request :
  snd (recordJoinRequest (Some userA) 20 1 "count me in" false scenario)
  = two_requests
  /\ exists db',
       addUserToTeam userA teamT2 two_requests = (Ok tt, db')
       /\ join_requests db' = [mkJoinRequest 42 20 1 true false]
       /\ ~ no_request_between db' 20 1.
Proof.
  split; [reflexivity|].
  exists (set_join_requests [mkJoinRequest 42 20 1 true false]
            (set_participants
               [mkParticipant 30 1 20; mkParticipant 31 2 20;
                mkParticipant 32 3 20]
               (set_teams [teamT2] two_requests))).
  split; [reflexivity|].
  split; [reflexivity|]. intros Hnone.
  apply (Hnone (mkJoinRequest 42 20 1 true false)); [now left|now split].
Qed.

Lemma earliest_request_deleted_same (db db' : DB) (teamId userId : Id) :
  earliest_request_deleted db db' teamId userId ->
  (join_requests db' = join_requests db
   <-> no_request_between db teamId userId).
Proof.
  intros Hjr. rewrite (earliest_request_deleted_requests _ _ _ _ Hjr).
  apply first_request_deleted.
Qed.

(** C3, as the code has it.  [addUserToTeam] has two runs.  When the user
    has a team in the inviting team's competition it returns with all of its
    steps applied: the pair's earliest join request is deleted, the
    participant row of the user on the prior team points to the inviting
    team, and the prior team is deleted when its roster had one member.
    Otherwise it throws the authorization error, and the store then is the
    starting store without the pair's earliest join request: every other
    table is as it was, and the store is the starting store exactly when no
    join request lay between the pair. *)
Theorem addUserToTeam_outcomes (db : DB) (user : UserDoc)
    (invitingTeam : TeamDoc) :
  (resolvable_team db (user_id user) (team_competition invitingTeam)
   /\ exists db' row prior,
        addUserToTeam user invitingTeam db = (Ok tt, db')
        /\ In row (participants db)
        /\ participant_user row = user_id user
        /\ participant_team row = team_id prior
        /\ get team_id (teams db) (team_id prior) = Some prior
        /\ team_competition prior = team_competition invitingTeam
        /\ earliest_request_deleted db db' (team_id invitingTeam) (user_id user)
        /\ row_reassigned db db' row (team_id invitingTeam)
        /\ team_deleted_when_solo db db' (team_id prior)
        /\ competitions db' = competitions db
        /\ join_messages db' = join_messages db
        /\ next_id db' = next_id db)
  \/ (~ resolvable_team db (user_id user) (team_competition invitingTeam)
      /\ exists db',
           addUserToTeam user invitingTeam db = (Throw UserNotInCompetition, db')
           /\ earliest_request_deleted db db' (team_id invitingTeam)
                                       (user_id user)
           /\ competitions db' = competitions db
           /\ teams db' = teams db
           /\ participants db' = participants db
           /\ join_messages db' = join_messages db
           /\ next_id db' = next_id db
           /\ (db' = db
               <-> no_request_between db (team_id invitingTeam) (user_id user))).
Proof.
  destruct (addUserToTeam_steps db user invitingTeam)
    as [Hreturns|(Hno & db' & Hrun & Hjr & Hc & Ht & Hp & Hm & Hn)];
    [now left|right].
  split; [exact Hno|]. exists db'.
  repeat (split; [assumption|]).
  rewrite <- (earliest_request_deleted_same _ _ _ _ Hjr). split.
  - now intros ->.
  - intros Hsame. destruct db, db'. simpl in *. congruence.
Qed.

(** C3 as stated fails: team 20 holds an accepted request of user 7, who has
    no participant row; the run throws the authorization error after it has
    deleted that request. *)
Lemma addUserToTeam_deletes_before_it_throws :
  addUserToTeam stranger teamT2 stranger_accepted
  = (Throw UserNotInCompetition, set_join_requests [] stranger_accepted)
  /\ join_requests stranger_accepted = [mkJoinRequest 40 20 7 true true]
  /\ join_requests (set_join_requests [] stranger_accepted) = []
  /\ set_join_requests [] stranger_accepted <> stranger_accepted.
Proof.
  repeat split. discriminate.
Qed.

Lemma find_app_Some {A} (f : A -> bool) (l l' : list A) (x : A) :
  find f l = Some x -> find f (l ++ l') = Some x.
Proof.
  induction l as [|a l IH]; simpl; [discriminate|]. destruct (f a); auto.
Qed.

(** C4, as the code has it.  When a join request already lies between the
    team and the user, the recorder called from the user's side leaves every
    existing row as it is and appends a second row for the pair, with the
    user's consent and without the team's; the pair then has more than one
    join request, the earliest is still the one it was, and the validator
    answers what it answered before. *)
Theorem recordJoinRequest_appends_second (db : DB) (auth : Auth)
    (sender : UserDoc) (inviterTeam : TeamDoc) (joiner : UserDoc)
    (pitch : string) (existing : JoinRequestDoc) :
  verifyUser db auth = Ok sender ->
  first_request_between db (team_id inviterTeam) (user_id joiner) existing ->
  exists newJoinRequest db',
    recordJoinRequest auth (team_id inviterTeam) (user_id joiner) pitch false db
    = (Ok newJoinRequest, db')
    /\ join_requests db'
       = join_requests db
         ++ [mkJoinRequest newJoinRequest (team_id inviterTeam) (user_id joiner)
                           true false]
    /\ first_request_between db' (team_id inviterTeam) (user_id joiner) existing
    /\ ~ at_most_one_request db' (team_id inviterTeam) (user_id joiner)
    /\ validateTeamJoinRequest db' inviterTeam joiner
       = validateTeamJoinRequest db inviterTeam joiner.
Proof.
  intros Hauth Hfirst. do 2 eexists.
  rewrite (recordJoinRequest_run _ _ _ _ _ _ _ Hauth).
  split; [reflexivity|]. split; [reflexivity|].
  pose proof Hfirst as (before & after & Hl & Hbetween & Hbefore).
  split; [|split].
  - exists before, (after ++ [mkJoinRequest (next_id db) (team_id inviterTeam)
                               (user_id joiner) true false]).
    simpl. rewrite Hl, <- app_assoc. auto.
  - intros Hone.
    apply (Hone before existing
             (after ++ [mkJoinRequest (next_id db) (team_id inviterTeam)
                          (user_id joiner) true false])
             ltac:(simpl; rewrite Hl, <- app_assoc; reflexivity) Hbetween
             (mkJoinRequest (next_id db) (team_id inviterTeam) (user_id joiner)
                            true false)).
    + rewrite app_assoc. apply in_or_app. right. now left.
    + now split.
  - apply validateTeamJoinRequest_frame; try reflexivity.
    simpl. apply find_request_first in Hfirst.
    rewrite Hfirst. now apply find_app_Some.
Qed.

Lemma recordJoinRequest_appends_second_witness :
  exists newJoinRequest db',
    recordJoinRequest (Some userA) 20 1 "count me in" false scenario
    = (Ok newJoinRequest, db')
    /\ join_requests db'
       = [invitation] ++ [mkJoinRequest newJoinRequest 20 1 true false]
    /\ first_request_between db' 20 1 invitation
    /\ ~ at_most_one_request db' 20 1
    /\ validateTeamJoinRequest db' teamT2 userA
       = validateTeamJoinRequest scenario teamT2 userA.
Proof.
  apply (recordJoinRequest_appends_second scenario (Some userA) userA teamT2
           userA "count me in" invitation).
  - reflexivity.
  - exists [], []. split; [reflexivity|]. split; [now split|]. intros x [].
Defined.

(** C4 as stated fails: in the scenario, after team 20 has invited user 1,
    the recorder called from the user's side leaves the invitation without
    the user's consent, adds a second join request for the pair, and the
    validator still answers INVITED. *)
Lemma recorder_leaves_invitation_unconsented :
  exists db',
    recordJoinRequest (Some userA) 20 1 "count me in" false scenario
    = (Ok 42, db')
    /\ join_requests db' = [invitation; mkJoinRequest 42 20 1 true false]
    /\ jr_userConsent invitation = false
    /\ ~ at_most_one_request db' 20 1
    /\ validateTeamJoinRequest scenario teamT2 userA = Ok INVITED
    /\ validateTeamJoinRequest db' teamT2 userA = Ok INVITED.
Proof.
  eexists. split; [reflexivity|]. repeat split.
  intros Hone.
  apply (Hone [] invitation [mkJoinRequest 42 20 1 true false] eq_refl
              ltac:(now split) (mkJoinRequest 42 20 1 true false)).
  - now left.
  - now split.
Qed.

(** ** Further properties *)

(** A joiner who already holds a participant row of the inviting team gets
    BACKWARDS, before any other test. *)
Theorem validate_backwards (db : DB) (inviterTeam : TeamDoc) (joiner : UserDoc) :
  is_member db (team_id inviterTeam) (user_id joiner) ->
  validateTeamJoinRequest db inviterTeam joiner = Ok BACKWARDS.
Proof.
  intros Hmem. apply member_existsb in Hmem. unfold validateTeamJoinRequest.
  now rewrite findIndex_existsb, Hmem.
Qed.

Lemma validate_backwards_witness :
  validateTeamJoinRequest scenario teamT2 (mkUser 2) = Ok BACKWARDS.
Proof.
  apply validate_backwards.
  exists (mkParticipant 31 2 20). simpl. auto.
Defined.

(** The only error [addUserToTeam] raises is the authorization error: the
    internal error of its third step and the errors of the delete and patch
    primitives cannot occur. *)
Theorem addUserToTeam_only_error (db : DB) (user : UserDoc)
    (invitingTeam : TeamDoc) (e : ConvexError) (db' : DB) :
  addUserToTeam user invitingTeam db = (Throw e, db') ->
  e = UserNotInCompetition.
Proof.
  intros Hrun.
  pose proof (addUserToTeam_run db user invitingTeam) as H. cbv zeta in H.
  destruct (findTeamOfUser_cases
              (without_first_request db (team_id invitingTeam) (user_id user))
              user (team_competition invitingTeam))
    as [[E _]|(found & E & _)]; rewrite E in H.
  - congruence.
  - destruct H as (row & _ & _ & _ & H). congruence.
Qed.

Lemma addUserToTeam_only_error_witness :
  UserNotInCompetition = UserNotInCompetition.
Proof.
  symmetry.
  apply (addUserToTeam_only_error stranger_accepted stranger teamT2
           UserNotInCompetition (set_join_requests [] stranger_accepted)).
  reflexivity.
Defined.

(** The validator writes nothing and never raises an error other than the
    authorization error. *)
Theorem validate_total (db : DB) (inviterTeam : TeamDoc) (joiner : UserDoc) :
  (exists validity, validateTeamJoinRequest db inviterTeam joiner = Ok validity)
  \/ validateTeamJoinRequest db inviterTeam joiner = Throw UserNotInCompetition.
Proof.
  unfold validateTeamJoinRequest.
  destruct (_ <? _)%Z; [left; eauto|].
  destruct (4 <=? _); [left; eauto|].
  destruct (findTeamOfUser_cases db joiner (team_competition inviterTeam))
    as [[E _]|(found & E & _)]; rewrite E; [now right|left].
  destruct (1 <? _); [eauto|].
  destruct (find _ _) as [jr|]; [|eauto].
  destruct (jr_teamConsent jr), (jr_userConsent jr); simpl; eauto.
Qed.

(** ** Listings *)

Lemma get_unique {A} (key : A -> Id) (table : list A) (row : A) :
  NoDup (map key table) -> In row table -> get key table (key row) = Some row.
Proof.
  unfold get. induction table as [|a table IH]; simpl; [intros _ []|].
  intros Hnd Hin. inversion Hnd as [|? ? Hnotin Hnd']; subst.
  destruct (key a =? key row) eqn:E.
  - apply Nat.eqb_eq in E. destruct Hin as [->|Hin]; [reflexivity|].
    destruct Hnotin. rewrite E. now apply in_map.
  - destruct Hin as [->|Hin]; [now rewrite Nat.eqb_refl in E|]. now apply IH.
Qed.

Lemma length_concat_options {A B} (g : A -> list B) (l : list A) :
  (forall a, length (g a) <= 1) ->
  length (concat (map g l)) <= length l.
Proof.
  intros Hg. induction l as [|a l IH]; simpl; [lia|].
  rewrite length_app. specialize (Hg a). lia.
Qed.

(** [listOwnParticipations] lists exactly the participant rows of the user
    whose team row and whose team's competition row both exist, each with
    the team and the competition it resolves to; rows that dangle are left
    out, so the listing is never longer than the user's rows. *)
Theorem listOwnParticipations_resolved (db : DB) (user : UserDoc) :
  (forall x,
      In x (listOwnParticipations db user) <->
      In (participation x) (participants db)
      /\ participant_user (participation x) = user_id user
      /\ get team_id (teams db) (participant_team (participation x))
         = Some (team x)
      /\ get competition_id (competitions db) (team_competition (team x))
         = Some (competition x))
  /\ length (listOwnParticipations db user)
     <= length (participants_by_user db (user_id user)).
Proof.
  split; [intros x; apply In_listOwnParticipations|].
  unfold listOwnParticipations, fulfillAndFlatten.
  apply length_concat_options. intros item.
  destruct (get team_id _ _) as [t|]; simpl; [|lia].
  destruct (get competition_id _ _); simpl; lia.
Qed.

(** [findTeamOfUser] never raises the not-found error of [verifyTeam]: it
    returns [false] exactly when the user has no participant row that
    resolves into the competition, and otherwise, the user having such a
    row, a view of an existing team of that competition, with one member per
    participant row of the team, together with a participant row of the user
    on that team. *)
Theorem findTeamOfUser_result (db : DB) (user : UserDoc) (competitionId : Id) :
  (findTeamOfUser db user competitionId = Ok None
   /\ ~ resolvable_team db (user_id user) competitionId)
  \/ (resolvable_team db (user_id user) competitionId
      /\ exists found,
        findTeamOfUser db user competitionId = Ok (Some found)
        /\ In (userMembership found) (participants db)
        /\ participant_user (userMembership found) = user_id user
        /\ participant_team (userMembership found)
           = team_id (info_team (teamAndMembers found))
        /\ get team_id (teams db) (team_id (info_team (teamAndMembers found)))
           = Some (info_team (teamAndMembers found))
        /\ team_competition (info_team (teamAndMembers found)) = competitionId
        /\ (exists competition,
               get competition_id (competitions db) competitionId
               = Some competition)
        /\ map user_id (members (teamAndMembers found))
           = map participant_user
               (participants_by_team db
                  (team_id (info_team (teamAndMembers found))))
        /\ joinRequests (teamAndMembers found)
           = join_requests_by_team db
               (team_id (info_team (teamAndMembers found)))).
Proof.
  destruct (findTeamOfUser_cases db user competitionId)
    as [H|(found & E & Hf & Hyes)]; [now left|right].
  split; [exact Hyes|].
  exists found. split; [exact E|].
  destruct Hf as [Hrow Huser Hteam Hid Hcomp Hmem Hjr].
  split; [exact Hrow|]. split; [exact Huser|]. split; [now rewrite Hid|].
  split; [now rewrite Hid|]. split; [exact Hcomp|]. split.
  { destruct Hyes as (p & t & c & _ & _ & _ & _ & Ec). now exists c. }
  split; [|exact Hjr].
  rewrite Hmem, map_map. simpl. now rewrite map_id.
Qed.

Lemma promise_all_verifyTeam (db : DB) (rows : list TeamDoc) :
  (forall item, In item rows -> In item (teams db)) ->
  exists views,
    promise_all (map (fun item => verifyTeam db (team_id item)) rows) = Ok views
    /\ map (fun view => team_id (info_team view)) views = map team_id rows
    /\ (forall view, In view views ->
          In (info_team view) (teams db)
          /\ map user_id (members view)
             = map participant_user
                 (participants_by_team db (team_id (info_team view)))
          /\ joinRequests view
             = join_requests_by_team db (team_id (info_team view)))
    /\ (unique_team_ids db -> map info_team views = rows).
Proof.
  induction rows as [|item rows IH]; intros Hrows.
  - exists []. simpl. split; [reflexivity|]. split; [reflexivity|].
    split; [intros ? []|reflexivity].
  - destruct IH as (views & Hall & Hids & Hviews & Huniq).
    { intros x Hx. apply Hrows. now right. }
    assert (Hin : In item (teams db)) by (apply Hrows; now left).
    destruct (get_In team_id _ _ Hin) as [t Ht].
    destruct (get_Some _ _ _ _ Ht) as [Htin Htid].
    simpl. unfold verifyTeam at 1. rewrite Ht, Hall.
    eexists. split; [reflexivity|]. simpl. split; [now rewrite Htid, Hids|].
    split.
    + intros view [<-|Hview]; [|now apply Hviews]. simpl.
      rewrite Htid. split; [exact Htin|]. split; [|reflexivity].
      unfold convertToUserDocumentArray. rewrite map_map. simpl.
      now rewrite map_id.
    + intros Hnd. rewrite (Huniq Hnd). f_equal.
      pose proof (get_unique team_id _ _ Hnd Hin) as Hitem. congruence.
Qed.

(** [listCompetitionTeams] never fails: it returns one view per team row of
    the competition, in the order of the rows, each view with one member per
    participant row of its team and with the team's join requests; when team
    identifiers are unique the views are those of the rows themselves. *)
Theorem listCompetitionTeams_views (db : DB) (competitionId : Id) :
  exists views,
    listCompetitionTeams db competitionId = Ok views
    /\ map (fun view => team_id (info_team view)) views
       = map team_id (teams_by_competition db competitionId)
    /\ (forall view, In view views ->
          In (info_team view) (teams db)
          /\ map user_id (members view)
             = map participant_user
                 (participants_by_team db (team_id (info_team view)))
          /\ joinRequests view
             = join_requests_by_team db (team_id (info_team view)))
    /\ (unique_team_ids db ->
        map info_team views = teams_by_competition db competitionId
        /\ forall view, In view views ->
             team_competition (info_team view) = competitionId).
Proof.
  destruct (promise_all_verifyTeam db (teams_by_competition db competitionId))
    as (views & Hall & Hids & Hviews & Huniq).
  { intros item Hitem. now apply filter_In in Hitem as [Hitem _]. }
  exists views. split; [exact Hall|]. split; [exact Hids|].
  split; [exact Hviews|]. intros Hnd. split; [now apply Huniq|].
  intros view Hview.
  assert (Hrow : In (info_team view) (teams_by_competition db competitionId)).
  { rewrite <- (Huniq Hnd). now apply in_map. }
  apply filter_In in Hrow as [_ Hcomp]. now apply Nat.eqb_eq.
Qed.

(** ** The earliest participation *)

Lemma findTeamOfUser_first (db : DB) (user : UserDoc) (competitionId : Id) :
  findTeamOfUser db user competitionId
  = match find (resolves db competitionId)
               (participants_by_user db (user_id user)) with
    | None => Ok None
    | Some row =>
        match get team_id (teams db) (participant_team row) with
        | None => Ok None
        | Some team =>
            Ok (Some (mkTeamOfUser
                        (mkTeamInfo team
                           (convertToUserDocumentArray db
                              (map participant_user
                                   (participants_by_team db (team_id team))))
                           (join_requests_by_team db (team_id team)))
                        row))
        end
    end.
Proof.
  unfold findTeamOfUser, listOwnParticipations, fulfillAndFlatten.
  induction (participants_by_user db (user_id user)) as [|item l IH];
    [reflexivity|].
  cbn [map concat find]. unfold resolves at 1.
  destruct (get team_id (teams db) (participant_team item)) as [t|] eqn:Et;
    [|exact IH].
  destruct (get competition_id (competitions db) (team_competition t))
    as [c|] eqn:Ec; [|exact IH].
  cbn [app find competition]. destruct (competition_id c =? competitionId); [|exact IH].
  cbn [team participation]. unfold verifyTeam.
  destruct (get_Some _ _ _ _ Et) as [_ Hid]. rewrite Et.
  replace (get team_id (teams db) (team_id t)) with (Some t)
    by (now rewrite Hid).
  reflexivity.
Qed.

Lemma find_same {A} (p q : A -> bool) (l : list A) (x y : A) :
  find p l = Some x -> find q l = Some y ->
  q x = true -> p y = true -> x = y.
Proof.
  induction l as [|a l IH]; simpl; [discriminate|].
  destruct (p a) eqn:Ep, (q a) eqn:Eq.
  - congruence.
  - intros [= <-]. congruence.
  - intros _ [= <-]. congruence.
  - exact IH.
Qed.

Lemma find_ext_eq {A} (p q : A -> bool) (l : list A) :
  (forall a, p a = q a) -> find p l = find q l.
Proof.
  intros H. induction l as [|a l IH]; simpl; [reflexivity|].
  now rewrite H, IH.
Qed.

(** [findTeamOfUser] selects the earliest participant row of the user that
    resolves into the competition: no earlier row of the user has a team row
    and a competition row with that competition. *)
Theorem findTeamOfUser_earliest (db : DB) (user : UserDoc) (competitionId : Id)
    (found : TeamOfUser) :
  findTeamOfUser db user competitionId = Ok (Some found) ->
  exists before after,
    participants_by_user db (user_id user)
    = before ++ userMembership found :: after
    /\ resolves db competitionId (userMembership found) = true
    /\ forall row, In row before -> resolves db competitionId row = false.
Proof.
  rewrite findTeamOfUser_first.
  destruct (find _ _) as [row|] eqn:E; [|discriminate].
  destruct (get team_id _ _); [|discriminate].
  intros [= <-]. simpl. now apply find_split.
Qed.

Lemma findTeamOfUser_earliest_witness :
  exists before after,
    participants_by_user scenario 1 = before ++ mkParticipant 30 1 10 :: after
    /\ resolves scenario 100 (mkParticipant 30 1 10) = true
    /\ forall row, In row before -> resolves scenario 100 row = false.
Proof.
  apply (findTeamOfUser_earliest scenario userA 100
           (mkTeamOfUser (mkTeamInfo teamT1 [mkUser 1] [])
                         (mkParticipant 30 1 10))).
  reflexivity.
Defined.

(** ** After the mutator *)

Lemma addUserToTeam_success (db : DB) (user : UserDoc) (invitingTeam : TeamDoc)
    (db' : DB) :
  addUserToTeam user invitingTeam db = (Ok tt, db') ->
  exists prior first row,
    get team_id (teams db) (team_id prior) = Some prior
    /\ find (resolves db (team_competition invitingTeam))
            (participants_by_user db (user_id user)) = Some first
    /\ participant_team first = team_id prior
    /\ find (fun item => participant_user item =? user_id user)
            (participants_by_team db (team_id prior)) = Some row
    /\ In row (participants db)
    /\ participant_user row = user_id user
    /\ participant_team row = team_id prior
    /\ competitions db' = competitions db
    /\ teams db'
       = (if roster_size db (team_id prior) =? 1
          then filter (fun t => negb (team_id t =? team_id prior)) (teams db)
          else teams db)
    /\ participants db'
       = map (moved_to (participant_id row) (team_id invitingTeam))
             (participants db)
    /\ join_requests db'
       = join_requests
           (without_first_request db (team_id invitingTeam) (user_id user))
    /\ join_messages db' = join_messages db
    /\ next_id db' = next_id db.
Proof.
  intros Hrun.
  pose proof (addUserToTeam_run_row db user invitingTeam) as H. cbv zeta in H.
  destruct (without_first_request_tables db (team_id invitingTeam) (user_id user))
    as (Hc & Ht & Hp & Hm & Hn).
  set (db1 := without_first_request db (team_id invitingTeam) (user_id user)) in *.
  rewrite findTeamOfUser_first in H.
  replace (participants_by_user db1 (user_id user))
    with (participants_by_user db (user_id user)) in H
    by (unfold participants_by_user; now rewrite Hp).
  rewrite (find_ext_eq (resolves db1 (team_competition invitingTeam))
             (resolves db (team_competition invitingTeam))) in H
    by (intros a; unfold resolves; now rewrite Ht, Hc).
  rewrite Ht in H.
  destruct (find _ (participants_by_user db (user_id user))) as [first|] eqn:E;
    [|congruence].
  destruct (get team_id (teams db) (participant_team first)) as [prior|] eqn:Et;
    [|congruence].
  simpl in H. destruct H as (row & Hfirst & Hin & Hu & Hteam & H).
  rewrite H in Hrun. destruct (get_Some _ _ _ _ Et) as [_ Hid].
  exists prior, first, row.
  split; [now rewrite Hid|]. split; [reflexivity|]. split; [now rewrite Hid|].
  split; [exact Hfirst|]. split; [exact Hin|]. split; [exact Hu|].
  split; [exact Hteam|].
  injection Hrun as <-.
  destruct (roster_size db (team_id prior) =? 1); simpl;
    rewrite ?Hc, ?Ht, ?Hp, ?Hm, ?Hn; repeat split; reflexivity.
Qed.

Lemma moved_to_user (rowId teamId : Id) (row : ParticipantDoc) :
  participant_user (moved_to rowId teamId row) = participant_user row.
Proof. unfold moved_to. now destruct (_ =? _). Qed.

Lemma moved_to_id (rowId teamId : Id) (row : ParticipantDoc) :
  participant_id (moved_to rowId teamId row) = participant_id row.
Proof. unfold moved_to. now destruct (_ =? _). Qed.

Lemma filter_map_commute {A} (p : A -> bool) (f : A -> A) (l : list A) :
  (forall a, p (f a) = p a) -> filter p (map f l) = map f (filter p l).
Proof.
  intros H. induction l as [|a l IH]; simpl; [reflexivity|].
  rewrite H. destruct (p a); simpl; now rewrite IH.
Qed.

Lemma get_filter_other {A} (key : A -> Id) (table : list A) (id removed : Id) :
  id <> removed ->
  get key (filter (fun row => negb (key row =? removed)) table) id
  = get key table id.
Proof.
  intros Hne. unfold get. induction table as [|a table IH]; simpl; [reflexivity|].
  destruct (key a =? removed) eqn:Er; simpl.
  - apply Nat.eqb_eq in Er.
    destruct (key a =? id) eqn:Ei; [apply Nat.eqb_eq in Ei; congruence|exact IH].
  - destruct (key a =? id); [reflexivity|exact IH].
Qed.

Lemma get_filter_Some {A} (key : A -> Id) (table : list A) (id removed : Id)
    (row : A) :
  get key (filter (fun row => negb (key row =? removed)) table) id = Some row ->
  get key table id = Some row.
Proof.
  destruct (Nat.eq_dec id removed) as [->|Hne].
  - now rewrite get_removed.
  - now rewrite get_filter_other.
Qed.

Lemma resolves_same_team (db : DB) (competitionId : Id) (a b : ParticipantDoc) :
  participant_team a = participant_team b ->
  resolves db competitionId a = resolves db competitionId b.
Proof. unfold resolves. now intros ->. Qed.

(** After a run that returns, the teams are those of before or those of
    before without the prior team. *)
Lemma addUserToTeam_teams_shrink (db db' : DB) (prior : TeamDoc) :
  teams db'
  = (if roster_size db (team_id prior) =? 1
     then filter (fun t => negb (team_id t =? team_id prior)) (teams db)
     else teams db) ->
  forall id t, get team_id (teams db') id = Some t ->
               get team_id (teams db) id = Some t.
Proof.
  intros -> id t. destruct (_ =? 1); [apply get_filter_Some|auto].
Qed.

(** The row the mutator reassigns is the one [findTeamOfUser] selected. *)
Lemma reassigned_is_earliest (db : DB) (user : UserDoc) (competitionId : Id)
    (prior : TeamDoc) (first row : ParticipantDoc) :
  get team_id (teams db) (team_id prior) = Some prior ->
  find (resolves db competitionId) (participants_by_user db (user_id user))
  = Some first ->
  participant_team first = team_id prior ->
  find (fun item => participant_user item =? user_id user)
       (participants_by_team db (team_id prior)) = Some row ->
  participant_team row = team_id prior ->
  first = row.
Proof.
  intros Hprior Hfirst Hteam Hrow Hrteam.
  unfold participants_by_team in Hrow. rewrite find_filter in Hrow.
  unfold participants_by_user in Hfirst. rewrite find_filter in Hfirst.
  apply (find_same _ _ _ _ _ Hfirst Hrow).
  - rewrite Hteam, Nat.eqb_refl. simpl.
    apply find_some in Hfirst as [_ H]. now apply andb_true_iff in H.
  - apply find_some in Hrow as [_ H]. apply andb_true_iff in H as [_ H].
    rewrite H. simpl.
    apply find_some in Hfirst as [_ H']. apply andb_true_iff in H' as [_ H'].
    rewrite <- H'. apply resolves_same_team. congruence.
Qed.

Lemma find_after_move (P : ParticipantDoc -> bool) (rowId teamId : Id)
    (before after : list ParticipantDoc) (row : ParticipantDoc) :
  (forall r, P (patch_team teamId r) = true) ->
  (forall r, In r before -> P r = false) ->
  participant_id row = rowId ->
  exists r,
    In r (before ++ [row])
    /\ find P (map (moved_to rowId teamId) (before ++ row :: after))
       = Some (patch_team teamId r).
Proof.
  intros Hmoved Hbefore Hid.
  induction before as [|a before IH]; simpl.
  - exists row. split; [now left|].
    unfold moved_to. now rewrite Hid, Nat.eqb_refl, Hmoved.
  - assert (Ha : moved_to rowId teamId a
                 = if participant_id a =? rowId
                   then patch_team teamId a else a) by reflexivity.
    rewrite Ha. destruct (participant_id a =? rowId).
    + exists a. split; [now left|]. now rewrite Hmoved.
    + rewrite (Hbefore a) by now left.
      destruct IH as (r & Hr & Hfind).
      { intros r Hr. apply Hbefore. now right. }
      exists r. split; [now right|exact Hfind].
Qed.

(** After [addUserToTeam] has returned for a user who was not on the
    inviting team, and the inviting team is a stored team, [findTeamOfUser]
    finds the inviting team for the user in its competition, with the user
    among its members: the postcondition of the source's docstring. *)
Theorem addUserToTeam_then_findTeamOfUser (db : DB) (user : UserDoc)
    (invitingTeam : TeamDoc) (db' : DB) :
  addUserToTeam user invitingTeam db = (Ok tt, db') ->
  get team_id (teams db) (team_id invitingTeam) = Some invitingTeam ->
  ~ is_member db (team_id invitingTeam) (user_id user) ->
  exists found,
    findTeamOfUser db' user (team_competition invitingTeam) = Ok (Some found)
    /\ info_team (teamAndMembers found) = invitingTeam
    /\ participant_team (userMembership found) = team_id invitingTeam
    /\ participant_user (userMembership found) = user_id user
    /\ In user (members (teamAndMembers found)).
Proof.
  intros Hrun Hstored Hout.
  destruct (addUserToTeam_success _ _ _ _ Hrun)
    as (prior & first & row & Hprior & Hfirst & Hfteam & Hrow & Hin & Hu
        & Hteam & Hc & Ht & Hp & _).
  pose proof (reassigned_is_earliest _ _ _ _ _ _ Hprior Hfirst Hfteam Hrow Hteam)
    as ->.
  assert (Hne : team_id invitingTeam <> team_id prior).
  { intros Heq. apply Hout. exists row. rewrite Heq. auto. }
  assert (HT : get team_id (teams db') (team_id invitingTeam) = Some invitingTeam).
  { rewrite Ht. destruct (_ =? 1); [|exact Hstored].
    now rewrite get_filter_other. }
  pose proof Hfirst as Hsplit.
  apply find_split in Hsplit as (before & after & Hus & Hres & Hbefore).
  assert (Hcomp : exists c,
            get competition_id (competitions db) (team_competition invitingTeam)
            = Some c /\ competition_id c = team_competition invitingTeam).
  { unfold resolves in Hres. rewrite Hteam, Hprior in Hres.
    destruct (get competition_id _ (team_competition prior)) as [c|] eqn:Ec;
      [|discriminate].
    apply Nat.eqb_eq in Hres. destruct (get_Some _ _ _ _ Ec) as [_ Hcid].
    exists c. split; [|exact Hres]. congruence. }
  destruct Hcomp as (c & Hc0 & Hcid).
  assert (Hmoved : forall r,
            resolves db' (team_competition invitingTeam)
                     (patch_team (team_id invitingTeam) r) = true).
  { intros r. unfold resolves. simpl. rewrite HT, Hc, Hc0.
    now apply Nat.eqb_eq. }
  assert (Hstill : forall r, In r before ->
            resolves db' (team_competition invitingTeam) r = false).
  { intros r Hr. specialize (Hbefore r Hr).
    unfold resolves in *. rewrite Hc.
    destruct (get team_id (teams db') (participant_team r)) as [t|] eqn:E;
      [|reflexivity].
    now rewrite (addUserToTeam_teams_shrink _ _ _ Ht _ _ E) in Hbefore. }
  destruct (find_after_move _ (participant_id row) (team_id invitingTeam)
              before after row Hmoved Hstill eq_refl) as (r & Hr & Hfind).
  assert (Hruser : participant_user r = user_id user).
  { assert (Hrin : In r (participants_by_user db (user_id user))).
    { rewrite Hus. apply in_app_or in Hr as [Hr|[<-|[]]]; apply in_or_app;
        [now left|right; now left]. }
    apply filter_In in Hrin as [_ Hrin]. now apply Nat.eqb_eq. }
  rewrite findTeamOfUser_first.
  replace (participants_by_user db' (user_id user))
    with (map (moved_to (participant_id row) (team_id invitingTeam))
              (participants_by_user db (user_id user))).
  2:{ unfold participants_by_user. rewrite Hp. symmetry.
      apply filter_map_commute. intros a. now rewrite moved_to_user. }
  rewrite Hus, Hfind. simpl. rewrite HT.
  eexists. split; [reflexivity|]. simpl. repeat split; auto.
  unfold convertToUserDocumentArray. rewrite map_map.
  apply in_map_iff. exists (patch_team (team_id invitingTeam) row).
  split; [simpl; rewrite Hu; now destruct user|].
  apply filter_In. split; [|simpl; apply Nat.eqb_refl].
  rewrite Hp. apply in_map_iff. exists row. split; [|exact Hin].
  unfold moved_to. now rewrite Nat.eqb_refl.
Qed.

Lemma addUserToTeam_then_findTeamOfUser_witness :
  exists found,
    findTeamOfUser
      (mkDB [mkCompetition 100] [teamT2]
            [mkParticipant 30 1 20; mkParticipant 31 2 20; mkParticipant 32 3 20]
            [] [mkJoinMessage 41 40 2 "join us"] 42)
      userA (team_competition teamT2) = Ok (Some found)
    /\ info_team (teamAndMembers found) = teamT2
    /\ participant_team (userMembership found) = team_id teamT2
    /\ participant_user (userMembership found) = user_id userA
    /\ In userA (members (teamAndMembers found)).
Proof.
  apply (addUserToTeam_then_findTeamOfUser consented userA teamT2).
  - reflexivity.
  - reflexivity.
  - intros H. apply member_existsb in H. discriminate H.
Defined.

(** After [addUserToTeam] has returned, the validator answers BACKWARDS for
    the same user and team: the user holds a participant row of the inviting
    team. *)
Theorem addUserToTeam_then_backwards (db : DB) (user : UserDoc)
    (invitingTeam : TeamDoc) (db' : DB) :
  addUserToTeam user invitingTeam db = (Ok tt, db') ->
  is_member db' (team_id invitingTeam) (user_id user)
  /\ validateTeamJoinRequest db' invitingTeam user = Ok BACKWARDS.
Proof.
  intros Hrun.
  destruct (addUserToTeam_success _ _ _ _ Hrun)
    as (prior & first & row & _ & _ & _ & _ & Hin & Hu & _ & _ & _ & Hp & _).
  assert (Hmem : is_member db' (team_id invitingTeam) (user_id user)).
  { exists (patch_team (team_id invitingTeam) row). rewrite Hp.
    split; [|now split]. apply in_map_iff. exists row. split; [|exact Hin].
    unfold moved_to. now rewrite Nat.eqb_refl. }
  split; [exact Hmem|].
  apply member_existsb in Hmem. unfold validateTeamJoinRequest.
  now rewrite findIndex_existsb, Hmem.
Qed.

Lemma addUserToTeam_then_backwards_witness :
  is_member
    (mkDB [mkCompetition 100] [teamT2]
          [mkParticipant 30 1 20; mkParticipant 31 2 20; mkParticipant 32 3 20]
          [] [mkJoinMessage 41 40 2 "join us"] 42)
    20 1
  /\ validateTeamJoinRequest
       (mkDB [mkCompetition 100] [teamT2]
             [mkParticipant 30 1 20; mkParticipant 31 2 20; mkParticipant 32 3 20]
             [] [mkJoinMessage 41 40 2 "join us"] 42)
       teamT2 userA = Ok BACKWARDS.
Proof.
  apply (addUserToTeam_then_backwards consented userA teamT2). reflexivity.
Defined.

Lemma moved_only_row (rowId teamId : Id) (rows : list ParticipantDoc) :
  ~ In rowId (map participant_id rows) ->
  map (moved_to rowId teamId) rows = rows.
Proof.
  intros Hnotin. rewrite <- (map_id rows) at 2. apply map_ext_in.
  intros a Ha. unfold moved_to.
  destruct (participant_id a =? rowId) eqn:E; [|reflexivity].
  apply Nat.eqb_eq in E. destruct Hnotin. rewrite <- E. now apply in_map.
Qed.

Lemma roster_after_move (teamId : Id) (rows : list ParticipantDoc)
    (row : ParticipantDoc) :
  NoDup (map participant_id rows) ->
  In row rows ->
  participant_team row <> teamId ->
  length (filter (fun item => participant_team item =? teamId)
                 (map (moved_to (participant_id row) teamId) rows))
  = S (length (filter (fun item => participant_team item =? teamId) rows)).
Proof.
  intros Hnd Hin Hteam. induction rows as [|a rows IH]; [destruct Hin|].
  inversion Hnd as [|? ? Hnotin Hnd']; subst.
  destruct Hin as [->|Hin].
  - simpl. unfold moved_to at 1. rewrite Nat.eqb_refl. simpl.
    rewrite Nat.eqb_refl. apply Nat.eqb_neq in Hteam. rewrite Hteam.
    simpl. now rewrite moved_only_row.
  - assert (Hne : participant_id a <> participant_id row).
    { intros Heq. apply Hnotin. rewrite Heq. now apply in_map. }
    simpl. unfold moved_to at 1. apply Nat.eqb_neq in Hne. rewrite Hne.
    destruct (participant_team a =? teamId); simpl; now rewrite IH.
Qed.

(** [addUserToTeam] tests no capacity: when participant identifiers are
    unique and the user was not on the inviting team, a run that returns
    leaves the inviting team with one member more than before, whatever its
    size was, and the store with as many participant rows as before. *)
Theorem addUserToTeam_grows_roster (db : DB) (user : UserDoc)
    (invitingTeam : TeamDoc) (db' : DB) :
  addUserToTeam user invitingTeam db = (Ok tt, db') ->
  unique_participant_ids db ->
  ~ is_member db (team_id invitingTeam) (user_id user) ->
  roster_size db' (team_id invitingTeam)
  = S (roster_size db (team_id invitingTeam))
  /\ length (participants db') = length (participants db).
Proof.
  intros Hrun Hnd Hout.
  destruct (addUserToTeam_success _ _ _ _ Hrun)
    as (prior & first & row & _ & _ & _ & _ & Hin & Hu & Hteam & _ & _ & Hp & _).
  unfold roster_size, participants_by_team. rewrite Hp, length_map.
  split; [|reflexivity].
  apply roster_after_move; auto.
  intros Heq. apply Hout. exists row. auto.
Qed.

Lemma addUserToTeam_grows_roster_witness :
  roster_size
    (mkDB [mkCompetition 100] [teamT2]
          [mkParticipant 30 1 20; mkParticipant 31 2 20; mkParticipant 32 3 20;
           mkParticipant 33 4 20; mkParticipant 34 5 20]
          [] [mkJoinMessage 41 40 2 "join us"] 42)
    (team_id teamT2)
  = S (roster_size at_capacity (team_id teamT2))
  /\ length
       (participants
          (mkDB [mkCompetition 100] [teamT2]
                [mkParticipant 30 1 20; mkParticipant 31 2 20;
                 mkParticipant 32 3 20; mkParticipant 33 4 20;
                 mkParticipant 34 5 20]
                [] [mkJoinMessage 41 40 2 "join us"] 42))
     = length (participants at_capacity).
Proof.
  apply (addUserToTeam_grows_roster at_capacity userA teamT2).
  - reflexivity.
  - unfold unique_participant_ids. simpl.
    repeat (constructor; [simpl; intuition discriminate|]). constructor.
  - intros H. apply member_existsb in H. discriminate H.
Defined.

(** [addUserToTeam] for a user whose team in the competition is the inviting
    team itself, as its only member, returns and deletes the inviting team:
    the user's participant row then refers to a team that is gone. *)
Theorem addUserToTeam_sole_member (db : DB) (user : UserDoc)
    (invitingTeam : TeamDoc) (found : TeamOfUser) :
  findTeamOfUser db user (team_competition invitingTeam) = Ok (Some found) ->
  team_id (info_team (teamAndMembers found)) = team_id invitingTeam ->
  roster_size db (team_id invitingTeam) = 1 ->
  exists db',
    addUserToTeam user invitingTeam db = (Ok tt, db')
    /\ get team_id (teams db') (team_id invitingTeam) = None
    /\ is_member db' (team_id invitingTeam) (user_id user)
    /\ verifyTeam db' (team_id invitingTeam) = Throw TeamDoesNotExist.
Proof.
  intros Hfound Hsame Hsolo.
  pose proof (addUserToTeam_run db user invitingTeam) as H. cbv zeta in H.
  destruct (without_first_request_tables db (team_id invitingTeam) (user_id user))
    as (Hc & Ht & Hp & _).
  set (db1 := without_first_request db (team_id invitingTeam) (user_id user)) in *.
  assert (Hfound1 : exists found1,
            findTeamOfUser db1 user (team_competition invitingTeam)
            = Ok (Some found1)
            /\ team_id (info_team (teamAndMembers found1))
               = team_id invitingTeam).
  { rewrite findTeamOfUser_first in Hfound |- *.
    replace (participants_by_user db1 (user_id user))
      with (participants_by_user db (user_id user))
      by (unfold participants_by_user; now rewrite Hp).
    rewrite (find_ext_eq (resolves db1 (team_competition invitingTeam))
               (resolves db (team_competition invitingTeam)))
      by (intros a; unfold resolves; now rewrite Ht, Hc).
    rewrite Ht.
    destruct (find _ _) as [first|]; [|discriminate].
    destruct (get team_id (teams db) (participant_team first)) as [t|];
      [|discriminate].
    injection Hfound as <-. simpl in Hsame.
    eexists. split; [reflexivity|exact Hsame]. }
  destruct Hfound1 as (found1 & E & Hsame1). rewrite E in H.
  destruct H as (row & Hin & Hu & Hteam & H).
  rewrite Hsame1, Hsolo in H. simpl in H.
  eexists. split; [exact H|].
  assert (Hgone : get team_id
                    (teams (remove_team (team_id invitingTeam)
                              (reassign (participant_id row)
                                 (team_id invitingTeam) db1)))
                    (team_id invitingTeam) = None)
    by apply get_removed.
  split; [exact Hgone|]. split.
  - exists (patch_team (team_id invitingTeam) row). simpl. rewrite Hp.
    split; [|now split]. apply in_map_iff. exists row.
    now rewrite Nat.eqb_refl.
  - unfold verifyTeam. now rewrite Hgone.
Qed.

Lemma addUserToTeam_sole_member_witness :
  exists db',
    addUserToTeam (mkUser 2) teamT2 dangling = (Ok tt, db')
    /\ get team_id (teams db') (team_id teamT2) = None
    /\ is_member db' (team_id teamT2) 2
    /\ verifyTeam db' (team_id teamT2) = Throw TeamDoesNotExist.
Proof.
  apply (addUserToTeam_sole_member dangling (mkUser 2) teamT2
           (mkTeamOfUser (mkTeamInfo teamT2 [mkUser 2] [])
                         (mkParticipant 31 2 20))).
  - reflexivity.
  - reflexivity.
  - reflexivity.
Defined.

(** Whatever its outcome, [addUserToTeam] leaves the competitions and the
    join messages as they are and assigns no identifier; it creates and
    deletes no participant row and changes no row's user; it creates no team
    and no join request.  The messages of the join request it deletes
    stay. *)
Theorem addUserToTeam_frame (db : DB) (user : UserDoc) (invitingTeam : TeamDoc) :
  let db' := snd (addUserToTeam user invitingTeam db) in
  competitions db' = competitions db
  /\ join_messages db' = join_messages db
  /\ next_id db' = next_id db
  /\ map participant_id (participants db') = map participant_id (participants db)
  /\ map participant_user (participants db')
     = map participant_user (participants db)
  /\ (forall t, In t (teams db') -> In t (teams db))
  /\ (forall jr, In jr (join_requests db') -> In jr (join_requests db)).
Proof.
  intros db'.
  assert (Hjr : forall jr,
            In jr (join_requests
                     (without_first_request db (team_id invitingTeam)
                        (user_id user))) ->
            In jr (join_requests db)).
  { intros jr. unfold without_first_request.
    destruct (find _ _); simpl; [|auto]. intros Hin.
    now apply filter_In in Hin as [Hin _]. }
  destruct (addUserToTeam user invitingTeam db) as [[[]|e] db2] eqn:Hrun;
    subst db'; simpl.
  - destruct (addUserToTeam_success _ _ _ _ Hrun)
      as (prior & first & row & _ & _ & _ & _ & _ & _ & _ & Hc & Ht & Hp & Hj
          & Hm & Hn).
    split; [exact Hc|]. split; [exact Hm|]. split; [exact Hn|].
    rewrite Hp, !map_map. split; [|split; [|split]].
    + apply map_ext. intros a. apply moved_to_id.
    + apply map_ext. intros a. apply moved_to_user.
    + intros t. rewrite Ht. destruct (_ =? 1); [|auto].
      intros Hin. now apply filter_In in Hin as [Hin _].
    + intros jr. rewrite Hj. apply Hjr.
  - pose proof (addUserToTeam_run db user invitingTeam) as H. cbv zeta in H.
    destruct (without_first_request_tables db (team_id invitingTeam)
                (user_id user)) as (Hc & Ht & Hp & Hm & Hn).
    destruct (findTeamOfUser _ user (team_competition invitingTeam))
      as [[found|]|e']; [| |destruct H].
    + destruct H as (row & _ & _ & _ & H). congruence.
    + rewrite H in Hrun. injection Hrun as _ <-.
      rewrite Hc, Ht, Hp, Hm, Hn. repeat split; auto.
Qed.

Lemma roster_after_leave (teamId priorId : Id) (rows : list ParticipantDoc)
    (row : ParticipantDoc) :
  NoDup (map participant_id rows) ->
  In row rows ->
  participant_team row = priorId ->
  teamId <> priorId ->
  S (length (filter (fun item => participant_team item =? priorId)
                    (map (moved_to (participant_id row) teamId) rows)))
  = length (filter (fun item => participant_team item =? priorId) rows).
Proof.
  intros Hnd Hin Hteam Hne. induction rows as [|a rows IH]; [destruct Hin|].
  inversion Hnd as [|? ? Hnotin Hnd']; subst.
  destruct Hin as [->|Hin].
  - simpl. unfold moved_to at 1. rewrite !Nat.eqb_refl. simpl.
    apply Nat.eqb_neq in Hne. rewrite Hne. simpl.
    now rewrite moved_only_row.
  - assert (Hid : participant_id a <> participant_id row).
    { intros Heq. apply Hnotin. rewrite Heq. now apply in_map. }
    simpl. unfold moved_to at 1. apply Nat.eqb_neq in Hid. rewrite Hid.
    destruct (participant_team a =? participant_team row); simpl;
      now rewrite <- IH.
Qed.

(** Invariant I2 across [addUserToTeam]: when participant identifiers are
    unique and the user was not on the inviting team, a run that returns
    takes exactly one member off the user's prior team, and the prior team's
    row is gone exactly when that leaves it without members. *)
Theorem addUserToTeam_leaves_no_empty_team (db : DB) (user : UserDoc)
    (invitingTeam : TeamDoc) (db' : DB) (found : TeamOfUser) :
  addUserToTeam user invitingTeam db = (Ok tt, db') ->
  findTeamOfUser db user (team_competition invitingTeam) = Ok (Some found) ->
  unique_participant_ids db ->
  ~ is_member db (team_id invitingTeam) (user_id user) ->
  S (roster_size db' (team_id (info_team (teamAndMembers found))))
  = roster_size db (team_id (info_team (teamAndMembers found)))
  /\ (get team_id (teams db') (team_id (info_team (teamAndMembers found)))
      = None
      <-> roster_size db' (team_id (info_team (teamAndMembers found))) = 0).
Proof.
  intros Hrun Hfound Hnd Hout.
  destruct (addUserToTeam_success _ _ _ _ Hrun)
    as (prior & first & row & Hprior & Hfirst & Hfteam & _ & Hin & Hu & Hteam
        & _ & Ht & Hp & _).
  assert (Hsame : team_id (info_team (teamAndMembers found)) = team_id prior).
  { rewrite findTeamOfUser_first, Hfirst in Hfound.
    destruct (get team_id (teams db) (participant_team first)) as [t|] eqn:Et;
      [|discriminate].
    injection Hfound as <-. simpl.
    destruct (get_Some _ _ _ _ Et) as [_ Hid]. congruence. }
  rewrite Hsame.
  assert (Hne : team_id invitingTeam <> team_id prior).
  { intros Heq. apply Hout. exists row. rewrite Heq. auto. }
  assert (Hsize : S (roster_size db' (team_id prior))
                  = roster_size db (team_id prior)).
  { unfold roster_size, participants_by_team. rewrite Hp.
    now apply roster_after_leave. }
  split; [exact Hsize|].
  rewrite Ht. destruct (roster_size db (team_id prior) =? 1) eqn:E.
  - apply Nat.eqb_eq in E. rewrite get_removed. split; [lia|reflexivity].
  - apply Nat.eqb_neq in E. rewrite Hprior. split; [discriminate|lia].
Qed.

Lemma addUserToTeam_leaves_no_empty_team_witness :
  S (roster_size
       (mkDB [mkCompetition 100] [teamT2]
             [mkParticipant 30 1 20; mkParticipant 31 2 20; mkParticipant 32 3 20]
             [] [mkJoinMessage 41 40 2 "join us"] 42)
       (team_id teamT1))
  = roster_size consented (team_id teamT1)
  /\ (get team_id
          (teams
             (mkDB [mkCompetition 100] [teamT2]
                   [mkParticipant 30 1 20; mkParticipant 31 2 20;
                    mkParticipant 32 3 20]
                   [] [mkJoinMessage 41 40 2 "join us"] 42))
          (team_id teamT1) = None
      <-> roster_size
            (mkDB [mkCompetition 100] [teamT2]
                  [mkParticipant 30 1 20; mkParticipant 31 2 20;
                   mkParticipant 32 3 20]
                  [] [mkJoinMessage 41 40 2 "join us"] 42)
            (team_id teamT1) = 0).
Proof.
  apply (addUserToTeam_leaves_no_empty_team consented userA teamT2 _
           (mkTeamOfUser
              (mkTeamInfo teamT1 [mkUser 1] [])
              (mkParticipant 30 1 10))).
  - reflexivity.
  - reflexivity.
  - unfold unique_participant_ids. simpl.
    repeat (constructor; [simpl; intuition discriminate|]). constructor.
  - intros H. apply member_existsb in H. discriminate H.
Defined.

Lemma crosschat_value (db : DB) (joinRequestInfo : JoinRequestDoc)
    (viewer : Id) (invitingTeam : TeamDoc) :
  get team_id (teams db) (jr_team joinRequestInfo) = Some invitingTeam ->
  validateCrossChatParticipation db joinRequestInfo viewer
  = Ok (existsb (fun item => participant_user item =? viewer)
                (participants_by_team db (jr_team joinRequestInfo))
        || (jr_user joinRequestInfo =? viewer)).
Proof.
  intros Hteam. unfold validateCrossChatParticipation, verifyTeam.
  rewrite Hteam. simpl. do 2 f_equal.
  unfold convertToUserDocumentArray.
  induction (participants_by_team db (jr_team joinRequestInfo)) as [|p l IH];
    simpl; [reflexivity|]. now rewrite IH.
Qed.

(** A user whom [addUserToTeam] has moved off a team loses the cross chats
    of that team: for a join request of the prior team, of which the user
    held one participant row and is not the joiner, the guard granted the
    user access before the move; after it the guard answers false when the
    prior team had other members, and raises the not-found error when the
    user was its only member, the team being deleted. *)
Theorem addUserToTeam_revokes_crosschat (db : DB) (user : UserDoc)
    (invitingTeam : TeamDoc) (db' : DB) (found : TeamOfUser)
    (joinRequestInfo : JoinRequestDoc) :
  addUserToTeam user invitingTeam db = (Ok tt, db') ->
  findTeamOfUser db user (team_competition invitingTeam) = Ok (Some found) ->
  jr_team joinRequestInfo = team_id (info_team (teamAndMembers found)) ->
  jr_user joinRequestInfo <> user_id user ->
  ~ is_member db (team_id invitingTeam) (user_id user) ->
  single_membership db (jr_team joinRequestInfo) (user_id user) ->
  validateCrossChatParticipation db joinRequestInfo (user_id user) = Ok true
  /\ (roster_size db (jr_team joinRequestInfo) <> 1 ->
      validateCrossChatParticipation db' joinRequestInfo (user_id user)
      = Ok false)
  /\ (roster_size db (jr_team joinRequestInfo) = 1 ->
      validateCrossChatParticipation db' joinRequestInfo (user_id user)
      = Throw TeamDoesNotExist).
Proof.
  intros Hrun Hfound Hjr Hjoiner Hout Hsingle.
  destruct (addUserToTeam_success _ _ _ _ Hrun)
    as (prior & first & row & Hprior & Hfirst & Hfteam & _ & Hin & Hu & Hteam
        & _ & Ht & Hp & _).
  assert (Hsame : jr_team joinRequestInfo = team_id prior).
  { rewrite findTeamOfUser_first, Hfirst in Hfound.
    destruct (get team_id (teams db) (participant_team first)) as [t|] eqn:Et;
      [|discriminate].
    injection Hfound as <-. simpl in Hjr.
    destruct (get_Some _ _ _ _ Et) as [_ Hid]. congruence. }
  rewrite Hsame in *.
  assert (Hne : team_id invitingTeam <> team_id prior).
  { intros Heq. apply Hout. exists row. rewrite Heq. auto. }
  apply Nat.eqb_neq in Hjoiner.
  split; [|split].
  - rewrite (crosschat_value db _ _ prior) by now rewrite Hsame.
    rewrite Hsame.
    assert (Hmem : is_member db (team_id prior) (user_id user))
      by (exists row; auto).
    apply member_existsb in Hmem. now rewrite Hmem.
  - intros Hsize. apply Nat.eqb_neq in Hsize. rewrite Hsize in Ht.
    rewrite (crosschat_value db' _ _ prior) by now rewrite Hsame, Ht.
    rewrite Hsame, Hjoiner, orb_false_r. f_equal.
    apply not_member_existsb. intros (r' & Hr' & Hr't & Hr'u).
    rewrite Hp in Hr'. apply in_map_iff in Hr' as (r & <- & Hr).
    unfold moved_to in Hr't, Hr'u.
    destruct (participant_id r =? participant_id row) eqn:E.
    + simpl in Hr't. congruence.
    + assert (r = row) by (apply Hsingle; auto). subst r.
      now rewrite Nat.eqb_refl in E.
  - intros Hsize. rewrite Hsize in Ht. simpl in Ht.
    unfold validateCrossChatParticipation, verifyTeam.
    now rewrite Hsame, Ht, get_removed.
Qed.

Lemma addUserToTeam_revokes_crosschat_witness :
  validateCrossChatParticipation leaving (mkJoinRequest 43 10 3 true false) 6
  = Ok true
  /\ validateCrossChatParticipation
       (mkDB [mkCompetition 100] [teamT1; teamT2]
             [mkParticipant 30 1 10; mkParticipant 35 6 20; mkParticipant 31 2 20]
             [mkJoinRequest 43 10 3 true false]
             [mkJoinMessage 41 40 6 "let me in"; mkJoinMessage 44 43 3 "hello"]
             45)
       (mkJoinRequest 43 10 3 true false) 6
     = Ok false.
Proof.
  destruct (addUserToTeam_revokes_crosschat leaving (mkUser 6) teamT2
              (mkDB [mkCompetition 100] [teamT1; teamT2]
                    [mkParticipant 30 1 10; mkParticipant 35 6 20;
                     mkParticipant 31 2 20]
                    [mkJoinRequest 43 10 3 true false]
                    [mkJoinMessage 41 40 6 "let me in";
                     mkJoinMessage 44 43 3 "hello"]
                    45)
              (mkTeamOfUser
                 (mkTeamInfo teamT1 [mkUser 1; mkUser 6]
                             [mkJoinRequest 43 10 3 true false])
                 (mkParticipant 35 6 10))
              (mkJoinRequest 43 10 3 true false))
    as (Hbefore & Hafter & _).
  - reflexivity.
  - reflexivity.
  - reflexivity.
  - discriminate.
  - intros H. apply member_existsb in H. discriminate H.
  - intros r1 r2 H1 H2 Ht1 Hu1 Ht2 Hu2. simpl in H1, H2.
    destruct H1 as [<-|[<-|[<-|[]]]]; try discriminate Hu1;
      destruct H2 as [<-|[<-|[<-|[]]]]; try discriminate Hu2; reflexivity.
  - split; [exact Hbefore|]. apply Hafter. vm_compute. discriminate.
Defined.

(** ** The recorder, composed *)

Lemma find_app_None {A} (f : A -> bool) (l l' : list A) :
  find f l = None -> find f (l ++ l') = find f l'.
Proof.
  induction l as [|a l IH]; simpl; [reflexivity|]. destruct (f a); auto.
  discriminate.
Qed.

Lemma validate_new_request (db db' : DB) (inviterTeam : TeamDoc)
    (joiner : UserDoc) (jr : JoinRequestDoc) :
  competitions db' = competitions db ->
  teams db' = teams db ->
  participants db' = participants db ->
  validateTeamJoinRequest db inviterTeam joiner = Ok VALID ->
  find (between (team_id inviterTeam) (user_id joiner)) (join_requests db)
  = None ->
  find (between (team_id inviterTeam) (user_id joiner)) (join_requests db')
  = Some jr ->
  validateTeamJoinRequest db' inviterTeam joiner
  = Ok (consent_state (jr_teamConsent jr) (jr_userConsent jr)).
Proof.
  intros Hc Ht Hp Hvalid Hnone Hsome. revert Hvalid.
  unfold validateTeamJoinRequest, findTeamOfUser, listOwnParticipations,
    verifyTeam, participants_by_team, participants_by_user.
  rewrite !find_request_between, Hc, Ht, Hp, Hnone, Hsome.
  destruct (_ <? _)%Z; [discriminate|].
  destruct (4 <=? _); [discriminate|].
  destruct (find _ (fulfillAndFlatten _)) as [cp|]; [|discriminate].
  destruct (get team_id _ _); [|discriminate].
  cbn [teamAndMembers members].
  destruct (1 <? _); [discriminate|]. intros _.
  now destruct (jr_teamConsent jr), (jr_userConsent jr).
Qed.

(** A first request: when the validator answers VALID with no join request
    between the pair, and the recorder then runs for the pair, the validator
    answers INVITED after a team-side call and REQUESTED after a user-side
    call. *)
Theorem recordJoinRequest_then_validate (db : DB) (auth : Auth)
    (sender : UserDoc) (inviterTeam : TeamDoc) (joiner : UserDoc)
    (pitch : string) (teamConsent : bool) :
  verifyUser db auth = Ok sender ->
  validateTeamJoinRequest db inviterTeam joiner = Ok VALID ->
  no_request_between db (team_id inviterTeam) (user_id joiner) ->
  validateTeamJoinRequest
    (snd (recordJoinRequest auth (team_id inviterTeam) (user_id joiner) pitch
                            teamConsent db))
    inviterTeam joiner
  = Ok (if teamConsent then INVITED else REQUESTED).
Proof.
  intros Hauth Hvalid Hnone.
  rewrite (recordJoinRequest_run _ _ _ _ _ _ _ Hauth).
  apply find_request_none in Hnone.
  rewrite (validate_new_request db _ inviterTeam joiner
             (mkJoinRequest (next_id db) (team_id inviterTeam) (user_id joiner)
                            (negb teamConsent) teamConsent));
    try reflexivity; try assumption.
  - now destruct teamConsent.
  - cbn [snd join_requests]. rewrite find_app_None by exact Hnone.
    cbn [find]. unfold between. cbn [jr_team jr_user].
    now rewrite !Nat.eqb_refl.
Qed.

Lemma recordJoinRequest_then_validate_witness :
  validateTeamJoinRequest
    (snd (recordJoinRequest (Some userA) (team_id teamT2) (user_id userA)
                            "count me in" false
                            (set_join_requests [] scenario)))
    teamT2 userA
  = Ok REQUESTED.
Proof.
  apply (recordJoinRequest_then_validate (set_join_requests [] scenario)
           (Some userA) userA teamT2 userA "count me in" false).
  - reflexivity.
  - reflexivity.
  - intros jr [].
Defined.

Lemma find_app {A} (f : A -> bool) (l l' : list A) :
  find f (l ++ l')
  = match find f l with Some x => Some x | None => find f l' end.
Proof.
  induction l as [|a l IH]; simpl; [reflexivity|]. now destruct (f a).
Qed.

(** The identifier the recorder returns is that of the request it created:
    in a store whose join requests all carry identifiers assigned by earlier
    inserts, looking the returned identifier up yields the new request,
    every other identifier looks up as before, and the requests of the new
    store again carry assigned identifiers. *)
Theorem recordJoinRequest_lookup (db : DB) (auth : Auth) (sender : UserDoc)
    (inviterTeamId joinerId : Id) (pitch : string) (teamConsent : bool) :
  verifyUser db auth = Ok sender ->
  request_ids_assigned db ->
  exists newJoinRequest db',
    recordJoinRequest auth inviterTeamId joinerId pitch teamConsent db
    = (Ok newJoinRequest, db')
    /\ get jr_id (join_requests db') newJoinRequest
       = Some (mkJoinRequest newJoinRequest inviterTeamId joinerId
                             (negb teamConsent) teamConsent)
    /\ (forall id, id <> newJoinRequest ->
                   get jr_id (join_requests db') id
                   = get jr_id (join_requests db) id)
    /\ request_ids_assigned db'.
Proof.
  intros Hauth Hassigned. do 2 eexists.
  rewrite (recordJoinRequest_run _ _ _ _ _ _ _ Hauth).
  split; [reflexivity|]. simpl. unfold get. split; [|split].
  - rewrite find_app.
    destruct (find _ (join_requests db)) as [jr|] eqn:E.
    + apply find_some in E as [Hin Hid]. apply Nat.eqb_eq in Hid.
      specialize (Hassigned jr Hin). simpl in Hid. lia.
    + simpl. now rewrite Nat.eqb_refl.
  - intros id Hne. rewrite find_app.
    destruct (find _ (join_requests db)); [reflexivity|]. simpl.
    apply Nat.neq_sym, Nat.eqb_neq in Hne. now rewrite Hne.
  - intros jr Hin. simpl in Hin.
    apply in_app_or in Hin as [Hin|[<-|[]]]; simpl.
    + specialize (Hassigned jr Hin). lia.
    + lia.
Qed.

Lemma recordJoinRequest_lookup_witness :
  exists newJoinRequest db',
    recordJoinRequest (Some userA) 20 1 "count me in" false scenario
    = (Ok newJoinRequest, db')
    /\ get jr_id (join_requests db') newJoinRequest
       = Some (mkJoinRequest newJoinRequest 20 1 (negb false) false)
    /\ (forall id, id <> newJoinRequest ->
                   get jr_id (join_requests db') id
                   = get jr_id (join_requests scenario) id)
    /\ request_ids_assigned db'.
Proof.
  apply (recordJoinRequest_lookup scenario (Some userA) userA 20 1
           "count me in" false).
  - reflexivity.
  - intros jr [<-|[]]. vm_compute. lia.
Defined.

(** ** The chat component *)

Lemma chat_run_cons (event : Chat.Event) (events : list Chat.Event)
    (draft : string) :
  Chat.run (event :: events) draft
  = (fst (Chat.run events (fst (Chat.handle event draft))),
     snd (Chat.handle event draft)
     ++ snd (Chat.run events (fst (Chat.handle event draft)))).
Proof.
  simpl. destruct (Chat.handle event draft) as [d sent]. simpl.
  now destruct (Chat.run events d).
Qed.

Lemma chat_handle_cases (event : Chat.Event) (draft : string) :
  Chat.handle event draft = (draft, [])
  \/ (exists value, event = Chat.Change value
                    /\ Chat.handle event draft = (value, []))
  \/ (draft <> EmptyString
      /\ Chat.handle event draft = (EmptyString, [draft])).
Proof.
  destruct event as [value|key|]; simpl.
  - right. left. now exists value.
  - unfold Chat.handleEnterPressed, Chat.handleMessageSend.
    destruct (String.eqb key "Enter"); [|now left].
    destruct draft; simpl; [now left|right; right]. split; [discriminate|auto].
  - unfold Chat.handleMessageSend.
    destruct draft; simpl; [now left|right; right]. split; [discriminate|auto].
Qed.

(** Whatever the user does, the chat component never sends an empty message,
    and every message it sends is the initial draft or a value the input
    was changed to. *)
Theorem chat_sends_typed_nonempty (events : list Chat.Event) (draft : string) :
  Forall (fun message =>
            message <> EmptyString
            /\ (message = draft \/ In message (Chat.changes events)))
         (snd (Chat.run events draft)).
Proof.
  revert draft. induction events as [|event events IH]; intros draft.
  - constructor.
  - rewrite chat_run_cons. cbn [snd]. apply Forall_app.
    assert (Hweaken : forall d,
              (d = draft \/ In d (Chat.changes (event :: events))
               \/ d = EmptyString) ->
              Forall (fun message =>
                        message <> EmptyString
                        /\ (message = draft
                            \/ In message (Chat.changes (event :: events))))
                     (snd (Chat.run events d))).
    { intros d Hd. eapply Forall_impl; [|apply (IH d)].
      intros m [Hm [->|Hin]]; (split; [exact Hm|]).
      - destruct Hd as [Hd|[Hd|Hd]]; [now left|now right|congruence].
      - right. simpl. apply in_or_app. now right. }
    destruct (chat_handle_cases event draft)
      as [E|[(value & -> & E)|(Hdraft & E)]]; rewrite E; cbn [fst snd].
    + split; [constructor|]. apply Hweaken. now left.
    + split; [constructor|]. apply Hweaken. right. left. now left.
    + split; [|apply Hweaken; now right; right].
      constructor; [|constructor]. split; [exact Hdraft|now left].
Qed.

(** The chat component sends a draft at most once: the number of messages
    sent is at most the number of changes of the input, plus one when the
    initial draft is not empty; and right after a click on the button the
    draft is empty. *)
Theorem chat_sends_each_draft_once (events : list Chat.Event) (draft : string) :
  length (snd (Chat.run events draft))
  <= (if Chat.falsy draft then 0 else 1) + length (Chat.changes events)
  /\ fst (Chat.run (events ++ [Chat.Click]) draft) = EmptyString.
Proof.
  split.
  - revert draft. induction events as [|event events IH]; intros draft.
    + simpl. lia.
    + rewrite chat_run_cons. cbn [snd]. rewrite length_app.
      destruct (chat_handle_cases event draft)
        as [E|[(value & -> & E)|(Hdraft & E)]]; rewrite E; cbn [fst snd length].
      * specialize (IH draft). simpl. rewrite length_app. lia.
      * specialize (IH value). simpl.
        destruct (Chat.falsy value), (Chat.falsy draft); lia.
      * specialize (IH EmptyString). simpl in IH.
        destruct draft; [congruence|]. simpl. rewrite length_app. lia.
  - revert draft. induction events as [|event events IH]; intros draft.
    + simpl. unfold Chat.handleMessageSend. now destruct draft.
    + change ((event :: events) ++ [Chat.Click])
        with (event :: (events ++ [Chat.Click])).
      rewrite chat_run_cons. cbn [fst]. apply IH.
Qed.

(** ** The landing page *)

(** The landing page shows at most ten competitions: the last ten of the
    listing in their order, or all of them when there are ten or fewer, and
    none while the listing has not arrived. *)
Theorem home_shows_last_ten {A} (query : option (list A)) :
  length (Home.shown query) <= 10
  /\ (query = None -> Home.shown query = [])
  /\ (forall competitions,
        query = Some competitions ->
        length (Home.shown query) = Nat.min 10 (length competitions)
        /\ (exists older, competitions = older ++ Home.shown query)
        /\ (length competitions <= 10 -> Home.shown query = competitions)).
Proof.
  unfold Home.shown, Home.slice_last_ten. split; [|split].
  - rewrite length_skipn. lia.
  - now intros ->.
  - intros competitions ->. split; [|split].
    + rewrite length_skipn. lia.
    + exists (firstn (length competitions - 10) competitions).
      now rewrite firstn_skipn.
    + intros Hshort.
      replace (length competitions - 10) with 0 by lia. reflexivity.
Qed.
